(** * Ghidrall lifter: a shallow embedding of [ghidrall/src/lifter.py]

    The lifter walks a per-function P-code artifact (already parsed XML) and
    drives an llvmlite [IRBuilder].  The embedding keeps the shape of the
    Python code: the artifact is a tree of records, llvmlite values are
    objects in a heap (their [.type] attribute is mutable, and the lifter does
    mutate it), the dictionaries of the [Lifter] and [Function] objects are
    finite maps, and every method is a computation in a state-and-exception
    monad. *)

From Stdlib Require Import ZArith NArith Ascii String List Bool Lia.
From Stdlib Require Import HexadecimalString.
From stdpp Require Import base option list gmap strings.

Local Open Scope string_scope.
Local Open Scope Z_scope.

(** ** Python string primitives used by the lifter *)

Module Py.

(** [pat in s] for two strings. *)
Fixpoint contains (pat s : string) : bool :=
  if String.prefix pat s then true
  else match s with
       | EmptyString => false
       | String _ s' => contains pat s'
       end.

(** [s.index(pat)]; [None] stands for the [ValueError] Python raises. *)
Fixpoint index (pat s : string) : option nat :=
  if String.prefix pat s then Some 0%nat
  else match s with
       | EmptyString => None
       | String _ s' => S <$> index pat s'
       end.

(** [s[n:]] *)
Fixpoint drop (n : nat) (s : string) : string :=
  match n, s with
  | O, _ => s
  | S _, EmptyString => EmptyString
  | S n', String _ s' => drop n' s'
  end.

(** [s[:n]] *)
Fixpoint take (n : nat) (s : string) : string :=
  match n, s with
  | O, _ => EmptyString
  | S _, EmptyString => EmptyString
  | S n', String c s' => String c (take n' s')
  end.

(** [s.split(sep)[0]] for a one-character separator: the text before the
    first occurrence of [sep], or all of [s] when there is none. *)
Fixpoint split_head (sep : ascii) (s : string) : string :=
  match s with
  | EmptyString => EmptyString
  | String c s' => if Ascii.eqb c sep then EmptyString
                   else String c (split_head sep s')
  end.

Fixpoint zeros (n : nat) : string :=
  match n with
  | O => EmptyString
  | S n' => String "0" (zeros n')
  end.

(** [s.zfill(width)]: zeros go after a leading sign. *)
Definition zfill (width : nat) (s : string) : string :=
  let len := String.length s in
  if (width <=? len)%nat then s
  else match s with
       | String c s' =>
           if Ascii.eqb c "+" || Ascii.eqb c "-"
           then String c (zeros (width - len) +:+ s')
           else zeros (width - len) +:+ s
       | EmptyString => zeros (width - len)
       end.

(** Whitespace that [int()] strips (the ASCII part of [str.isspace]). *)
Definition is_space (c : ascii) : bool :=
  let n := nat_of_ascii c in
  ((9 <=? n) && (n <=? 13) || (28 <=? n) && (n <=? 32))%nat.

Fixpoint lstrip (s : string) : string :=
  match s with
  | String c s' => if is_space c then lstrip s' else s
  | EmptyString => EmptyString
  end.

Fixpoint rstrip (s : string) : string :=
  match s with
  | EmptyString => EmptyString
  | String c s' =>
      match rstrip s' with
      | EmptyString => if is_space c then EmptyString else String c EmptyString
      | r => String c r
      end
  end.

Definition digit_val (c : ascii) : option Z :=
  let n := Z.of_nat (nat_of_ascii c) in
  if (48 <=? n) && (n <=? 57) then Some (n - 48)
  else if (97 <=? n) && (n <=? 122) then Some (n - 87)
  else if (65 <=? n) && (n <=? 90) then Some (n - 55)
  else None.

(** The digit loop of [int(text, base)]: digits below [base], single
    underscores only between digits.  [prev_us] is true at the start and
    after an underscore. *)
Fixpoint digits (base acc : Z) (prev_us : bool) (s : string) : option Z :=
  match s with
  | EmptyString => if prev_us then None else Some acc
  | String c s' =>
      if Ascii.eqb c "_" then
        if prev_us then None else digits base acc true s'
      else match digit_val c with
           | Some d => if d <? base then digits base (acc * base + d) false s'
                       else None
           | None => None
           end
  end.

(** [int(text, base)] for base 10 and 16 on ASCII text; [None] stands for
    the [ValueError].  Non-ASCII digits and spaces, which Python accepts as
    well, are outside the model. *)
Definition int_of (base : Z) (text : string) : option Z :=
  let s := rstrip (lstrip text) in
  let '(neg, s) :=
    match s with
    | String c s' =>
        if Ascii.eqb c "-" then (true, s')
        else if Ascii.eqb c "+" then (false, s') else (false, s)
    | EmptyString => (false, s)
    end in
  let s :=
    if (base =? 16) && (String.prefix "0x" s || String.prefix "0X" s)
    then match drop 2 s with
         | String c s' as r => if Ascii.eqb c "_" then s' else r
         | EmptyString => EmptyString
         end
    else s in
  v ← digits base 0 true s;
  Some (if neg then - v else v).

(** [hex(n)] *)
Definition hex (n : Z) : string :=
  let body := "0x" +:+ NilZero.string_of_uint (N.to_hex_uint (Z.to_N (Z.abs n))) in
  if n <? 0 then "-" +:+ body else body.

End Py.

(** ** [Function.format_label] *)

Definition format_label (label : string) : string :=
  let label := if String.eqb (Py.take 2 label) "0x" then Py.drop 2 label else label in
  "0x" +:+ Py.zfill 8 label.

(** ** The decompilation artifact

    One record per XML element the lifter reads.  Sizes are the [int(...)] of
    the element text (a byte count, so a natural number); the [offset] and
    [size] attributes of a [<symbol>] are [None] when absent or not a
    number, which is exactly when the [try] around them fails. *)

Record varnode := Varnode {
  vn_symbol : string;
  vn_size : N;
  vn_offset : option Z;
  vn_offset_size : option N
}.

Record op := Op {
  opname : string;
  inputs : list varnode;
  output : option varnode
}.

Record xml_block := XmlBlock {
  address : string;
  ops : list op;
  out_branches : list string
}.

Record xml_var := XmlVar { var_name : string; var_size : N }.

Record function_xml := FunctionXml {
  fx_args : list xml_var;
  fx_return_type : string;
  fx_return_size : N;
  fx_locals : list xml_var;
  fx_blocks : list xml_block
}.

(** A varnode named by symbol and size only. *)
Definition vn (symbol : string) (size : N) : varnode := Varnode symbol size None None.

(** ** llvmlite types and values *)

#[local] Set Warnings "-register-all".

Inductive ty :=
  | IntType (width : N)
  | VoidType
  | LabelType
  | PointerType (pointee : ty)
  | IdentifiedStructType (name : string)
  | FunctionType (ret : ty) (params : list ty).

Definition ty_eq_dec : ∀ a b : ty, {a = b} + {a ≠ b}.
Proof.
  fix IH 1. intros a b. decide equality.
  - apply N.eq_dec.
  - apply string_dec.
  - apply (List.list_eq_dec IH).
Defined.

#[global] Instance ty_eq_decision : EqDecision ty := ty_eq_dec.

Definition int1 : ty := IntType 1.
Definition int8 : ty := IntType 8.
Definition int32 : ty := IntType 32.
Definition int64 : ty := IntType 64.
Definition void_type : ty := VoidType.

(** [isinstance(t, ir.IntType)] *)
Definition is_int (t : ty) : bool :=
  match t with IntType _ => true | _ => false end.

(** Objects are named by their position in the heap. *)
Abbreviation vid := nat.

Inductive vdesc :=
  | Constant (val : Z)
  | Argument (name : string)
  | GlobalVariable (name : string) (initializer : Z)
  | Function (name : string) (args : list vid)
  | Block (name : string) (instructions : list vid) (terminator : option vid)
  | Instruction (opname : string) (operands : list vid).

(** A value object; [v_type] is its [.type] attribute. *)
Record vobj := VObj { v_desc : vdesc; v_type : ty }.

(** What a Python name may hold besides objects of the IR: the marks kept in
    [Lifter.ret_types] are strings or integers. *)
Inductive pyval := PyStr (s : string) | PyInt (n : Z).

Definition py_eq (a b : pyval) : bool :=
  match a, b with
  | PyStr s, PyStr t => String.eqb s t
  | PyInt n, PyInt m => n =? m
  | _, _ => false
  end.

(** An insertion-ordered dictionary: assignment replaces the value of a key
    that is present and appends otherwise. *)
Fixpoint dict_set {V} (k : string) (v : V) (d : list (string * V)) : list (string * V) :=
  match d with
  | [] => [(k, v)]
  | (k', v') :: d' => if String.eqb k' k then (k', v) :: d' else (k', v') :: dict_set k v d'
  end.

Fixpoint dict_get {V} (k : string) (d : list (string * V)) : option V :=
  match d with
  | [] => None
  | (k', v') :: d' => if String.eqb k' k then Some v' else dict_get k d'
  end.

(** ** Lifter state

    The module-level fields belong to the [Lifter] (and to llvmlite's module
    and global context), the others to the [Function] being lifted.  The last
    two fields are the local variables [lhs] and [rhs] of [lift_function]:
    they keep their value from one operation to the next, and [None] is an
    unbound name. *)

Record state := State {
  heap : list vobj;
  identified_types : gmap string (list ty);
  module_globals : gmap string vid;
  global_vars : gmap string vid;
  instrumentation : gmap string vid;
  functions_ir : gmap string vid;
  options_stack : string;
  filename : string;
  ir_func : vid;
  return_type : pyval;
  locals : gmap string vid;
  local_sizes : gmap string ty;
  temps : gmap string vid;
  ir_blocks : list (string * vid);
  xml_blocks : list (string * xml_block);
  var_lhs : option vid;
  var_rhs : option vid
}.

Definition with_heap (h : list vobj) (s : state) : state :=
  State h (identified_types s) (module_globals s) (global_vars s) (instrumentation s)
    (functions_ir s) (options_stack s) (filename s) (ir_func s) (return_type s)
    (locals s) (local_sizes s) (temps s) (ir_blocks s) (xml_blocks s) (var_lhs s) (var_rhs s).

Definition with_identified_types (x : gmap string (list ty)) (s : state) : state :=
  State (heap s) x (module_globals s) (global_vars s) (instrumentation s)
    (functions_ir s) (options_stack s) (filename s) (ir_func s) (return_type s)
    (locals s) (local_sizes s) (temps s) (ir_blocks s) (xml_blocks s) (var_lhs s) (var_rhs s).

Definition with_module_globals (x : gmap string vid) (s : state) : state :=
  State (heap s) (identified_types s) x (global_vars s) (instrumentation s)
    (functions_ir s) (options_stack s) (filename s) (ir_func s) (return_type s)
    (locals s) (local_sizes s) (temps s) (ir_blocks s) (xml_blocks s) (var_lhs s) (var_rhs s).

Definition with_global_vars (x : gmap string vid) (s : state) : state :=
  State (heap s) (identified_types s) (module_globals s) x (instrumentation s)
    (functions_ir s) (options_stack s) (filename s) (ir_func s) (return_type s)
    (locals s) (local_sizes s) (temps s) (ir_blocks s) (xml_blocks s) (var_lhs s) (var_rhs s).

Definition with_instrumentation (x : gmap string vid) (s : state) : state :=
  State (heap s) (identified_types s) (module_globals s) (global_vars s) x
    (functions_ir s) (options_stack s) (filename s) (ir_func s) (return_type s)
    (locals s) (local_sizes s) (temps s) (ir_blocks s) (xml_blocks s) (var_lhs s) (var_rhs s).

Definition with_functions_ir (x : gmap string vid) (s : state) : state :=
  State (heap s) (identified_types s) (module_globals s) (global_vars s) (instrumentation s)
    x (options_stack s) (filename s) (ir_func s) (return_type s)
    (locals s) (local_sizes s) (temps s) (ir_blocks s) (xml_blocks s) (var_lhs s) (var_rhs s).

Definition with_locals (x : gmap string vid) (s : state) : state :=
  State (heap s) (identified_types s) (module_globals s) (global_vars s) (instrumentation s)
    (functions_ir s) (options_stack s) (filename s) (ir_func s) (return_type s)
    x (local_sizes s) (temps s) (ir_blocks s) (xml_blocks s) (var_lhs s) (var_rhs s).

Definition with_temps (x : gmap string vid) (s : state) : state :=
  State (heap s) (identified_types s) (module_globals s) (global_vars s) (instrumentation s)
    (functions_ir s) (options_stack s) (filename s) (ir_func s) (return_type s)
    (locals s) (local_sizes s) x (ir_blocks s) (xml_blocks s) (var_lhs s) (var_rhs s).

Definition with_blocks (irb : list (string * vid)) (xb : list (string * xml_block))
    (s : state) : state :=
  State (heap s) (identified_types s) (module_globals s) (global_vars s) (instrumentation s)
    (functions_ir s) (options_stack s) (filename s) (ir_func s) (return_type s)
    (locals s) (local_sizes s) (temps s) irb xb (var_lhs s) (var_rhs s).

Definition with_lhs (x : option vid) (s : state) : state :=
  State (heap s) (identified_types s) (module_globals s) (global_vars s) (instrumentation s)
    (functions_ir s) (options_stack s) (filename s) (ir_func s) (return_type s)
    (locals s) (local_sizes s) (temps s) (ir_blocks s) (xml_blocks s) x (var_rhs s).

Definition with_rhs (x : option vid) (s : state) : state :=
  State (heap s) (identified_types s) (module_globals s) (global_vars s) (instrumentation s)
    (functions_ir s) (options_stack s) (filename s) (ir_func s) (return_type s)
    (locals s) (local_sizes s) (temps s) (ir_blocks s) (xml_blocks s) (var_lhs s) x.

(** ** Computations that read and update the state or raise *)

Inductive exn :=
  | Exception (msg : string)
  | ValueError
  | TypeError
  | KeyError
  | IndexError
  | AttributeError
  | UnboundLocalError
  | AssertionError
  | DuplicatedNameError (name : string).

Inductive result (A : Type) :=
  | Ok (a : A) (s : state)
  | Raise (e : exn).
Arguments Ok {A} a s.
Arguments Raise {A} e.

Definition M (A : Type) : Type := state → result A.

Definition ret {A} (a : A) : M A := λ s, Ok a s.
Definition raise {A} (e : exn) : M A := λ _, Raise e.
Definition bind {A B} (c : M A) (k : A → M B) : M B :=
  λ s, match c s with
       | Ok a s' => k a s'
       | Raise e => Raise e
       end.
Definition get : M state := λ s, Ok s s.
Definition modify (f : state → state) : M unit := λ s, Ok tt (f s).

(** [try: c  except: h] with a bare [except]: the state reached before the
    exception is kept (nothing inside the lifter's [try] blocks writes). *)
Definition try_except {A} (c : M A) (h : M A) : M A :=
  λ s, match c s with
       | Ok a s' => Ok a s'
       | Raise _ => h s
       end.

Notation "x <~ c ;; k" := (bind c (λ x, k))
  (at level 100, c at next level, right associativity, only parsing).
Notation "c ;;; k" := (bind c (λ _, k))
  (at level 100, right associativity, only parsing).

(** A dictionary subscript [d[k]]. *)
Definition subscript {A} (o : option A) : M A :=
  match o with Some a => ret a | None => raise KeyError end.

(** A list subscript [l[i]]. *)
Definition item {A} (l : list A) (i : nat) : M A :=
  match l !! i with Some a => ret a | None => raise IndexError end.

(** Using the result of a call as an object: attribute access on Python's
    [None] raises. *)
Definition deref {A} (o : option A) : M A :=
  match o with Some a => ret a | None => raise AttributeError end.

(** The value of an [int(...)] call that may raise. *)
Definition int_value (o : option Z) : M Z :=
  match o with Some n => ret n | None => raise ValueError end.

(** The [.type] of an object. *)
Definition type_of (s : state) (v : vid) : ty :=
  from_option v_type VoidType (heap s !! v).

Definition get_type (v : vid) : M ty := λ s, Ok (type_of s v) s.

(** [v.type = t] *)
Definition set_type (v : vid) (t : ty) : M unit :=
  modify (λ s, with_heap (alter (λ o, VObj (v_desc o) t) v (heap s)) s).

(** A new object. *)
Definition alloc (d : vdesc) (t : ty) : M vid :=
  λ s, Ok (length (heap s)) (with_heap (heap s ++ [VObj d t]) s).

(** [ir.Constant(t, val)] *)
Definition constant (t : ty) (val : Z) : M vid := alloc (Constant val) t.

(** ** The part of llvmlite's [IRBuilder] the lifter calls

    A builder is the basic block it appends to.  The checks are llvmlite's
    own: arithmetic and bitwise builders raise [ValueError] on operands of
    different types, [load], [store] and [call] raise [TypeError] on a type
    mismatch, a cast to the operand's own type returns the operand, a second
    terminator fails an assertion, and a global name can be registered once
    in a module. *)

Definition block_append (i : vid) (term : bool) (o : vobj) : vobj :=
  match v_desc o with
  | Block name instrs t =>
      VObj (Block name (instrs ++ [i]) (if term then Some i else t)) (v_type o)
  | _ => o
  end.

Definition insert_instr (builder : vid) (opname : string) (operands : list vid) (t : ty)
    : M vid :=
  i <~ alloc (Instruction opname operands) t ;;
  modify (λ s, with_heap (alter (block_append i false) builder (heap s)) s) ;;;
  ret i.

Definition is_terminated (s : state) (b : vid) : bool :=
  match v_desc <$> heap s !! b with
  | Some (Block _ _ (Some _)) => true
  | _ => false
  end.

Definition set_terminator (builder : vid) (opname : string) (operands : list vid) : M vid :=
  s <~ get ;;
  if is_terminated s builder then raise AssertionError
  else
    i <~ alloc (Instruction opname operands) VoidType ;;
    modify (λ s, with_heap (alter (block_append i true) builder (heap s)) s) ;;;
    ret i.

Definition binop (opname : string) (builder lhs rhs : vid) : M vid :=
  tl <~ get_type lhs ;;
  tr <~ get_type rhs ;;
  if bool_decide (tl ≠ tr) then raise ValueError
  else insert_instr builder opname [lhs; rhs] tl.

Definition icmp (pred : string) (builder lhs rhs : vid) : M vid :=
  insert_instr builder ("icmp " +:+ pred) [lhs; rhs] int1.

Definition castop (opname : string) (builder value : vid) (typ : ty) : M vid :=
  t <~ get_type value ;;
  if bool_decide (t = typ) then ret value
  else insert_instr builder opname [value] typ.

Definition alloca (builder : vid) (typ : ty) : M vid :=
  insert_instr builder "alloca" [] (PointerType typ).

Definition load (builder ptr : vid) : M vid :=
  t <~ get_type ptr ;;
  match t with
  | PointerType pointee => insert_instr builder "load" [ptr] pointee
  | _ => raise TypeError
  end.

Definition store (builder value ptr : vid) : M vid :=
  t <~ get_type ptr ;;
  tv <~ get_type value ;;
  match t with
  | PointerType pointee =>
      if bool_decide (pointee ≠ tv) then raise TypeError
      else insert_instr builder "store" [value; ptr] VoidType
  | _ => raise TypeError
  end.

(** The type llvmlite gives a [getelementptr]: each index steps into the
    current type, and the result is a pointer to what is reached (or the last
    pointer itself when the step left a pointer for a scalar). *)
Definition gep_step (s : state) (t : ty) (i : vid) : exn + ty :=
  match t with
  | PointerType pointee => if is_int (type_of s i) then inr pointee else inl TypeError
  | IdentifiedStructType name =>
      if bool_decide (type_of s i = int32) then
        match v_desc <$> heap s !! i, identified_types s !! name with
        | Some (Constant n), Some elems =>
            match elems !! Z.to_nat n with
            | Some t' => inr t'
            | None => inl IndexError
            end
        | _, _ => inl TypeError
        end
      else inl TypeError
  | _ => inl AttributeError
  end.

Fixpoint gep_walk (s : state) (last t : ty) (indices : list vid) : exn + (ty * ty) :=
  match indices with
  | [] => inr (last, t)
  | i :: rest =>
      match gep_step s t i with
      | inr t' => gep_walk s t t' rest
      | inl e => inl e
      end
  end.

Definition gep (builder ptr : vid) (indices : list vid) : M vid :=
  s <~ get ;;
  match gep_walk s VoidType (type_of s ptr) indices with
  | inr (last, t) =>
      let typ := match t, last with
                 | PointerType _, _ => PointerType t
                 | _, PointerType _ => last
                 | _, _ => PointerType t
                 end in
      insert_instr builder "getelementptr" (ptr :: indices) typ
  | inl e => raise e
  end.

(** [CallInstr] checks the leading arguments against the callee's declared
    parameter types; the callee's own type is a pointer to its function
    type. *)
Fixpoint check_call_args (s : state) (params : list ty) (args : list vid) : option exn :=
  match params, args with
  | [], _ => None
  | _ :: _, [] => Some IndexError
  | p :: params', a :: args' =>
      if bool_decide (type_of s a ≠ p) then Some TypeError
      else check_call_args s params' args'
  end.

Definition call (builder fn : vid) (args : list vid) : M vid :=
  s <~ get ;;
  match type_of s fn with
  | PointerType (FunctionType rt params) =>
      match check_call_args s params args with
      | Some e => raise e
      | None => insert_instr builder "call" (fn :: args) rt
      end
  | _ => raise AttributeError
  end.

Definition branch (builder target : vid) : M vid :=
  set_terminator builder "br" [target].

(** [builder.cbranch(cond, truebr, falsebr)] *)
Definition cbranch (builder cond truebr falsebr : vid) : M vid :=
  set_terminator builder "br" [cond; truebr; falsebr].

Definition ret_void (builder : vid) : M vid := set_terminator builder "ret void" [].
Definition ret_ (builder value : vid) : M vid := set_terminator builder "ret" [value].

(** [builder.neg(v)] is [sub 0, v]; [builder.not_(v)] is [xor v, -1]. *)
Definition neg (builder value : vid) : M vid :=
  t <~ get_type value ;;
  zero <~ constant t 0 ;;
  binop "sub" builder zero value.

Definition not_ (builder value : vid) : M vid :=
  t <~ get_type value ;;
  ones <~ constant t (-1) ;;
  binop "xor" builder value ones.

(** [ir.Function(module, ftype, name)]: registers the name in the module,
    creates one argument object per parameter type. *)
Fixpoint new_arguments (params : list ty) : M (list vid) :=
  match params with
  | [] => ret []
  | p :: rest =>
      a <~ alloc (Argument "") p ;;
      l <~ new_arguments rest ;;
      ret (a :: l)
  end.

Definition new_function (rt : ty) (params : list ty) (name : string) : M vid :=
  s <~ get ;;
  match module_globals s !! name with
  | Some _ => raise (DuplicatedNameError name)
  | None =>
      args <~ new_arguments params ;;
      f <~ alloc (Function name args) (PointerType (FunctionType rt params)) ;;
      modify (λ s, with_module_globals (<[name := f]> (module_globals s)) s) ;;;
      ret f
  end.

(** [ir.GlobalVariable(module, typ, name)] with [initializer = typ(init)] *)
Definition new_global (typ : ty) (name : string) (init : Z) : M vid :=
  s <~ get ;;
  match module_globals s !! name with
  | Some _ => raise (DuplicatedNameError name)
  | None =>
      g <~ alloc (GlobalVariable name init) (PointerType typ) ;;
      modify (λ s, with_module_globals (<[name := g]> (module_globals s)) s) ;;;
      ret g
  end.

(** [ir_func.append_basic_block(name)] *)
Definition append_basic_block (name : string) : M vid :=
  alloc (Block name [] None) LabelType.

(** [ir_func.args] *)
Definition function_args (s : state) (f : vid) : list vid :=
  match v_desc <$> heap s !! f with
  | Some (Function _ args) => args
  | _ => []
  end.

(** [a.name] of an argument object. *)
Definition arg_name (s : state) (a : vid) : string :=
  match v_desc <$> heap s !! a with
  | Some (Argument name) => name
  | _ => ""
  end.

Definition set_arg_name (a : vid) (name : string) : M unit :=
  modify (λ s, with_heap (alter (λ o, VObj (Argument name) (v_type o)) a (heap s)) s).

(** [for x in l: body x] *)
Fixpoint for_each {A} (l : list A) (body : A → M unit) : M unit :=
  match l with
  | [] => ret tt
  | x :: rest => body x ;;; for_each rest body
  end.

(** ** [Lifter] *)

Definition instrumentation_list : list string :=
  ["sym.path_start"; "sym.path_goal"; "sym.path_nongoal"; "sym.imp.rand"].

(** [x in l] for a list of strings. *)
Definition elem_str (x : string) (l : list string) : bool :=
  existsb (String.eqb x) l.

(** The [<symbol>] elements of an artifact in document order.  The source
    finds them by scanning the serialized XML line by line for the
    [<symbol>] tag and reads the size two lines below; the model walks the
    varnodes of the parsed operations instead. *)
Definition op_varnodes (o : op) : list varnode :=
  inputs o ++ match output o with Some v => [v] | None => [] end.

Definition function_varnodes (x : function_xml) : list varnode :=
  concat (map (λ b, concat (map op_varnodes (ops b))) (fx_blocks x)).

Definition has_attributes (v : varnode) : bool :=
  match vn_offset v, vn_offset_size v with
  | None, None => false
  | _, _ => true
  end.

(** [Lifter.fish_globals] *)
Definition fish_globals (decompile_info : list (string * function_xml)) : M unit :=
  for_each (concat (map (λ f, function_varnodes (snd f)) decompile_info)) (λ v,
    let symbol := vn_symbol v in
    if (String.prefix "_obj" symbol || String.prefix "obj" symbol) && negb (has_attributes v)
    then
      s <~ get ;;
      match global_vars s !! symbol with
      | Some _ => ret tt
      | None =>
          glob <~ new_global (IntType (vn_size v * 8)) symbol 0 ;;
          modify (λ s, with_global_vars (<[symbol := glob]> (global_vars s)) s)
      end
    else ret tt).

(** The return type and the mark recorded in [ret_types] for one function
    (the first lines of the loop body of [create_function_signatures]). *)
Definition return_signature (x : function_xml) : ty * pyval :=
  if String.eqb (fx_return_type x) "undefined8" then
    (IntType 64, PyStr "undefined8")
  else if String.eqb (fx_return_type x) "void" then
    (void_type, PyStr "void")
  else
    (IntType (8 * fx_return_size x), PyInt (8 * Z.of_N (fx_return_size x))).

(** The [args] dictionary of one function: name to integer type. *)
Definition signature_args (x : function_xml) : list (string * ty) :=
  fold_left (λ args a, dict_set (var_name a) (IntType (8 * var_size a)) args) (fx_args x) [].

(** The loop body of [Lifter.create_function_signatures]: declares the
    function and names its arguments.  A function's argument names are the
    distinct keys of [args], so llvmlite's renaming of clashing names does
    not come into play. *)
Definition create_function_signature (function : string) (x : function_xml) : M vid :=
  let '(func_return, _) := return_signature x in
  let args := signature_args x in
  ir_func <~ new_function func_return (map snd args) function ;;
  s <~ get ;;
  for_each (zip (function_args s ir_func) (map fst args)) (λ p, set_arg_name p.1 p.2) ;;;
  modify (λ s, with_functions_ir (<[function := ir_func]> (functions_ir s)) s) ;;;
  ret ir_func.

Definition create_function_signatures (decompile_info : list (string * function_xml))
    : M unit :=
  for_each decompile_info (λ f, create_function_signature f.1 f.2 ;;; ret tt).

(** ** [Function] *)

(** Width in bits of a local. *)
Definition local_bits (v : xml_var) : N :=
  if Py.contains "bVar" (var_name v) then 1 else var_size v * 8.

(** [context.get_identified_type(name)] followed by [set_body]. *)
Definition define_struct (name : string) (elems : list ty) : M ty :=
  s <~ get ;;
  match identified_types s !! name with
  | Some _ => raise (Exception "already defined")
  | None =>
      modify (λ s, with_identified_types (<[name := elems]> (identified_types s)) s) ;;;
      ret (IdentifiedStructType name)
  end.

Definition set_local (name : string) (p : vid) : M unit :=
  modify (λ s, with_locals (<[name := p]> (locals s)) s).

(** Byte layout of the [byte_addressable] policy: name, byte index, type. *)
Fixpoint byte_layout (total : N) (l : list xml_var) : list (string * N * ty) * N :=
  match l with
  | [] => ([], total)
  | v :: rest =>
      let size := if Py.contains "bVar" (var_name v) then 1%N else var_size v in
      let bit_size := if Py.contains "bVar" (var_name v) then 1%N else (var_size v * 8)%N in
      let '(tl, total') := byte_layout (total + size) rest in
      ((var_name v, total, IntType bit_size) :: tl, total')
  end.

Fixpoint enumerate_from {A} (i : Z) (l : list A) : list (Z * A) :=
  match l with
  | [] => []
  | x :: rest => (i, x) :: enumerate_from (i + 1) rest
  end.

(** The register pass of [recover_locals]: the widest size seen for each
    [register0x] symbol, one bit for a one-byte use. *)
Definition register_sizes (x : function_xml) : M (list (string * N)) :=
  let step (acc : M (list (string * N))) (v : varnode) : M (list (string * N)) :=
    register_vars <~ acc ;;
    if Py.contains "register0x" (vn_symbol v) then
      if has_attributes v then raise IndexError
      else
        let size := if (vn_size v =? 1)%N then vn_size v else (vn_size v * 8)%N in
        match dict_get (vn_symbol v) register_vars with
        | None => ret (dict_set (vn_symbol v) size register_vars)
        | Some old => if (old <? size)%N then ret (dict_set (vn_symbol v) size register_vars)
                      else ret register_vars
        end
    else ret register_vars in
  fold_left step (function_varnodes x) (ret []).

(** [Function.recover_locals]; returns the entry block, which is also the
    entry builder. *)
Definition recover_locals (name : string) (x : function_xml) : M vid :=
  entry <~ append_basic_block "entry" ;;
  s <~ get ;;
  let struct_name := "struct.locals." +:+ filename s +:+ "." +:+ name in
  (if String.eqb (options_stack s) "single_struct" then
     let local_sizes :=
       fold_left (λ d v, dict_set (var_name v) (IntType (local_bits v)) d) (fx_locals x) [] in
     local_struct <~ define_struct struct_name (map snd local_sizes) ;;
     struct <~ alloca entry local_struct ;;
     for_each (enumerate_from 0 (map fst local_sizes)) (λ p,
       zero <~ constant int32 0 ;;
       index <~ constant int32 p.1 ;;
       g <~ gep entry struct [zero; index] ;;
       set_local p.2 g)
   else if String.eqb (options_stack s) "byte_addressable" then
     let '(local_sizes, total_size) := byte_layout 0 (fx_locals x) in
     local_struct <~ define_struct struct_name (replicate (N.to_nat total_size) int8) ;;
     struct <~ alloca entry local_struct ;;
     for_each local_sizes (λ p,
       zero <~ constant int32 0 ;;
       index <~ constant int32 (Z.of_N p.1.2) ;;
       temp <~ gep entry struct [zero; index] ;;
       c <~ castop "bitcast" entry temp (PointerType p.2) ;;
       set_local p.1.1 c)
   else if String.eqb (options_stack s) "no_option" then
     for_each (fx_locals x) (λ v,
       a <~ alloca entry (IntType (local_bits v)) ;;
       set_local (var_name v) a)
   else ret tt) ;;;
  register_vars <~ register_sizes x ;;
  for_each register_vars (λ p,
    a <~ alloca entry (IntType p.2) ;;
    set_local p.1 a) ;;;
  ret entry.

(** [Function.build_cfg] *)
Definition build_cfg (entry : vid) (x : function_xml) : M unit :=
  for_each (fx_blocks x) (λ xml_block,
    let label := format_label (address xml_block) in
    block <~ append_basic_block label ;;
    modify (λ s, with_blocks (dict_set label block (ir_blocks s))
                             (dict_set label xml_block (xml_blocks s)) s)) ;;;
  s <~ get ;;
  first <~ item (map snd (ir_blocks s)) 0 ;;
  branch entry first ;;;
  ret tt.

(** [lhs.type.width] *)
Definition width_of (v : vid) : M N :=
  t <~ get_type v ;;
  match t with
  | IntType w => ret w
  | _ => raise AttributeError
  end.

(** [Function.fixConflictingIntType]: the two objects come back as they
    went in, one of them with its [.type] overwritten. *)
Definition fixConflictingIntType (lhs rhs : vid) : M (vid * vid) :=
  widthLhs <~ width_of lhs ;;
  widthRhs <~ width_of rhs ;;
  (if (widthRhs <? widthLhs)%N then set_type rhs (IntType widthLhs)
   else set_type lhs (IntType widthRhs)) ;;;
  ret (lhs, rhs).

(** [Function.instrument] *)
Definition instrument (call_target : string) : M (option vid) :=
  s <~ get ;;
  match instrumentation s !! call_target with
  | Some f => ret (Some f)
  | None =>
      let declare (rt : ty) (name : string) : M (option vid) :=
        ir_func <~ new_function rt [] name ;;
        modify (λ s, with_instrumentation (<[call_target := ir_func]> (instrumentation s)) s) ;;;
        ret (Some ir_func) in
      if String.eqb call_target "sym.path_start" then ret None
      else if String.eqb call_target "sym.path_goal" then declare void_type "verifier.error"
      else if String.eqb call_target "sym.path_nongoal" then declare void_type "verifier.error"
      else if String.eqb call_target "sym.imp.rand" then declare int32 "nd"
      else raise (Exception "Not excepted instrumentation function")
  end.

(** *** The varnode resolver *)

(** The symbol a varnode is resolved under: anything after a [.] is dropped
    from a name containing [var]. *)
Definition resolved_symbol (arg : varnode) : string :=
  let symbol := vn_symbol arg in
  if Py.contains "var" symbol then Py.split_head "." symbol else symbol.

(** The width [fetch_input] asks for: one bit for a [bVar] and for a
    one-byte varnode, eight bits per byte otherwise. *)
Definition requested_width (arg : varnode) : N :=
  if Py.contains "bVar" (resolved_symbol arg) then 1%N
  else if (vn_size arg =? 1)%N then vn_size arg else (vn_size arg * 8)%N.

(** The [try] block reading the [offset] and [size] attributes of the
    symbol, in bits; [None] when it fails. *)
Definition offset_attributes (arg : varnode) : option (Z * N) :=
  match vn_offset arg, vn_offset_size arg with
  | Some o, Some n => Some (8 * o, (8 * n)%N)
  | _, _ => None
  end.

(** The [for arg in ir_func.args] loop: the first argument object whose name
    is the symbol. *)
Definition find_argument (s : state) (symbol : string) : option vid :=
  List.find (λ a, String.eqb (arg_name s a) symbol) (function_args s (ir_func s)).

(** The integer a constant symbol denotes (the body of the last [try]):
    everything from the first [U] on is dropped, a symbol containing [0x] is
    read in base 16 from that point, any other in base 10. *)
Definition parse_constant (symbol : string) : option Z :=
  let symbol := if Py.contains "U" symbol then Py.split_head "U" symbol else symbol in
  if Py.contains "0x" symbol then
    index ← Py.index "0x" symbol; Py.int_of 16 (Py.drop index symbol)
  else Py.int_of 10 symbol.

(** [Function.fetch_input].  The result is [Some] object, or [None] for
    Python's [None]; [temps], [ir_func], [local_vars] and [global_vars] are
    the fields of the state the source passes along.

    The loop over [ir_func.args] rebinds the name [arg]: when the symbol
    contains [arg] and the function has parameters, what the local branch
    later asks for [offset] and [size] is an argument object, and the [try]
    fails. *)
Definition fetch_input (builder : vid) (arg : varnode) : M (option vid) :=
  let symbol := resolved_symbol arg in
  let size := requested_width arg in
  if Py.contains "argv" symbol then raise (Exception "argc and argv weird behaviour")
  else if Py.contains "argc" symbol then raise (Exception "argc and argv weird behaviour")
  else
    s <~ get ;;
    match (if Py.contains "arg" symbol then find_argument s symbol else None) with
    | Some a => ret (Some a)
    | None =>
        let rebound :=
          Py.contains "arg" symbol &&
          match function_args s (ir_func s) with [] => false | _ => true end in
        match global_vars s !! symbol with
        | Some g => v <~ load builder g ;; ret (Some v)
        | None =>
            match locals s !! symbol with
            | Some p =>
                match local_sizes s !! symbol with
                | Some _ => v <~ load builder p ;; ret (Some v)
                | None =>
                    let attrs := if rebound then None else offset_attributes arg in
                    let offset_size := match attrs with Some (_, n) => n | None => size end in
                    output <~ match attrs with
                              | Some (offset, n) =>
                                  c <~ constant (IntType n) offset ;;
                                  gep builder p [c]
                              | None => ret p
                              end ;;
                    final <~ load builder output ;;
                    t <~ get_type final ;;
                    if bool_decide (t ≠ IntType offset_size) then
                      final <~ insert_instr builder "trunc" [final] (IntType offset_size) ;;
                      ret (Some final)
                    else ret (Some final)
                end
            | None =>
                match temps s !! symbol with
                | Some v =>
                    t <~ get_type v ;;
                    if bool_decide (t = void_type) then
                      c <~ constant (IntType 1) 0 ;; ret (Some c)
                    else if bool_decide (t ≠ IntType size) && bool_decide (t ≠ int1) then
                      result <~ insert_instr builder "trunc" [v] (IntType size) ;;
                      ret (Some result)
                    else ret (Some v)
                | None =>
                    if Py.contains "false" symbol then
                      c <~ constant (IntType 1) 0 ;; ret (Some c)
                    else if Py.contains "true" symbol then
                      c <~ constant (IntType 1) 1 ;; ret (Some c)
                    else
                      try_except
                        (val <~ int_value (parse_constant symbol) ;;
                         c <~ constant (IntType size) val ;; ret (Some c))
                        (c <~ constant (IntType size) 0 ;; ret (Some c))
                end
            end
        end
    end.

(** [Function.fetch_store_output]; [arg] is [None] when the operation has
    no [<output>].  The result is the store instruction, or Python's
    [None]. *)
Definition fetch_store_output (builder : vid) (arg : option varnode) (result : vid)
    : M (option vid) :=
  arg <~ deref arg ;;
  let symbol := resolved_symbol arg in
  let size := (8 * vn_size arg)%N in
  let attrs := offset_attributes arg in
  let offset_size := match attrs with Some (_, n) => n | None => size end in
  s <~ get ;;
  match locals s !! symbol with
  | Some p =>
      output <~ match attrs with
                | Some (offset, n) =>
                    c <~ constant (IntType n) offset ;;
                    gep builder p [c]
                | None => ret p
                end ;;
      tr <~ get_type result ;;
      if bool_decide (tr ≠ void_type) then
        to <~ get_type output ;;
        output <~ (if bool_decide (to ≠ PointerType tr)
                   then castop "bitcast" builder output (PointerType tr)
                   else ret output) ;;
        i <~ store builder result output ;;
        ret (Some i)
      else ret None
  | None =>
      match global_vars s !! symbol with
      | Some g => i <~ store builder result g ;; ret (Some i)
      | None =>
          if Py.contains "register" symbol then
            modify (λ s, with_temps (<[symbol := result]> (temps s)) s) ;;; ret None
          else if Py.contains "unique" symbol then
            modify (λ s, with_temps (<[symbol := result]> (temps s)) s) ;;; ret None
          else if Py.contains "arg" symbol then ret None
          else ret None
      end
  end.

(** *** [Function.lift_function] *)

(** [x in l] for a string [x] and a list [l] of XML elements, as Python
    evaluates it: an [Element] defines no [__eq__], so no string equals one,
    whatever its text. *)
Inductive pyobj := PyString (s : string) | PyElement (text : string).

Definition pyobj_eqb (a b : pyobj) : bool :=
  match a, b with
  | PyString s, PyString t => String.eqb s t
  | _, _ => false
  end.

Definition py_in (x : pyobj) (l : list pyobj) : bool := existsb (pyobj_eqb x) l.

(** [fetch_input] where the caller goes on to use the result as an object.
    No path of [fetch_input] returns [None] (see [fetch_input_total]). *)
Definition fetch (builder : vid) (arg : varnode) : M vid :=
  r <~ fetch_input builder arg ;; deref r.

(** The same, assigned to the local variable [lhs], respectively [rhs]. *)
Definition fetch_lhs (builder : vid) (arg : varnode) : M vid :=
  v <~ fetch builder arg ;; modify (with_lhs (Some v)) ;;; ret v.

Definition fetch_rhs (builder : vid) (arg : varnode) : M vid :=
  v <~ fetch builder arg ;; modify (with_rhs (Some v)) ;;; ret v.

(** [instruction.find("inputs").find("input")] used as a varnode. *)
Definition first_input (o : op) : M varnode := deref (head (inputs o)).

(** [if lhs.type != rhs.type and isinstance(lhs.type, ir.IntType) and
    isinstance(rhs.type, ir.IntType): lhs, rhs = self.fixConflictingIntType(lhs, rhs)] *)
Definition reconcile (lhs rhs : vid) : M unit :=
  tl <~ get_type lhs ;;
  tr <~ get_type rhs ;;
  if bool_decide (tl ≠ tr) && is_int tl && is_int tr
  then fixConflictingIntType lhs rhs ;;; ret tt
  else ret tt.

(** Reading a local variable of [lift_function]. *)
Definition local_var (o : option vid) : M vid :=
  match o with Some v => ret v | None => raise UnboundLocalError end.

(** The arms that fetch [lhs] and [rhs], reconcile them, emit one
    instruction on them and store it. *)
Definition reconciled_arm (emit : vid → vid → vid → M vid) (builder : vid) (o : op)
    : M unit :=
  i0 <~ item (inputs o) 0 ;;
  lhs <~ fetch_lhs builder i0 ;;
  i1 <~ item (inputs o) 1 ;;
  rhs <~ fetch_rhs builder i1 ;;
  reconcile lhs rhs ;;;
  result <~ emit builder lhs rhs ;;
  fetch_store_output builder (output o) result ;;;
  ret tt.

(** The arms that fetch [lhs] and [rhs] and emit on them as they are. *)
Definition plain_arm (emit : vid → vid → vid → M vid) (builder : vid) (o : op) : M unit :=
  i0 <~ item (inputs o) 0 ;;
  lhs <~ fetch_lhs builder i0 ;;
  i1 <~ item (inputs o) 1 ;;
  rhs <~ fetch_rhs builder i1 ;;
  result <~ emit builder lhs rhs ;;
  fetch_store_output builder (output o) result ;;;
  ret tt.

(** The matching loop of the CBRANCH arm (its [else] branch). *)
Definition match_branches (off_by_1 : string) (branches : list string)
    (true_branch : string) : string * option string :=
  fold_left (λ '(true_branch, false_branch) text,
               if String.eqb text true_branch then (true_branch, false_branch)
               else if String.eqb text off_by_1 then (text, false_branch)
               else (true_branch, Some text))
            branches (true_branch, None).

(** The true and false labels the CBRANCH arm settles on. *)
Definition cbranch_targets (true_branch : string) (branches : list string)
    : M (string * string) :=
  n <~ int_value (Py.int_of 16 true_branch) ;;
  let true_branch_off_by_1 := format_label (Py.hex (n + 1)) in
  let elements := map PyElement branches in
  chosen <~
    (if negb (py_in (PyString true_branch) elements)
        || negb (py_in (PyString true_branch_off_by_1) elements)
     then
       t <~ item branches 0 ;;
       f <~ item branches 1 ;;
       ret (t, Some f)
     else ret (match_branches true_branch_off_by_1 branches true_branch)) ;;
  match chosen with
  | (_, None) => raise (Exception "No block match in conditional branch")
  | (true_branch, Some false_branch) => ret (true_branch, false_branch)
  end.

(** The argument loop of the CALL arm, with its [is not None] filter. *)
Fixpoint call_arguments (builder : vid) (rest : list varnode) (args : list vid)
    : M (list vid) :=
  match rest with
  | [] => ret args
  | arg :: rest' =>
      a <~ fetch_input builder arg ;;
      call_arguments builder rest'
        (match a with Some a => args ++ [a] | None => args end)
  end.

(** One iteration of the loop over the operations of a block; the result is
    the new value of [branched]. *)
Definition lift_op (builder : vid) (xml_block : xml_block) (branched : bool)
    (instruction : op) : M bool :=
  let opname := opname instruction in
  let inputs := inputs instruction in
  let target := output instruction in
  if String.eqb opname "COPY" then
    input_target <~ first_input instruction ;;
    result <~ fetch builder input_target ;;
    fetch_store_output builder target result ;;;
    ret branched
  else if String.eqb opname "LOAD" then ret branched
  else if String.eqb opname "STORE" then ret branched
  else if String.eqb opname "BRANCH" then
    input <~ first_input instruction ;;
    let target := format_label (vn_symbol input) in
    out <~ item (out_branches xml_block) 0 ;;
    let out_target := format_label out in
    let target := if negb (String.eqb target out_target) then out_target else target in
    s <~ get ;;
    block <~ subscript (dict_get target (ir_blocks s)) ;;
    branch builder block ;;;
    ret true
  else if String.eqb opname "CBRANCH" then
    i0 <~ item inputs 0 ;;
    let true_branch := format_label (vn_symbol i0) in
    i1 <~ item inputs 1 ;;
    conditional <~ fetch builder i1 ;;
    targets <~ cbranch_targets true_branch (out_branches xml_block) ;;
    let true_branch := targets.1 in
    let false_branch := targets.2 in
    s <~ get ;;
    false_block <~ subscript (dict_get false_branch (ir_blocks s)) ;;
    true_block <~ subscript (dict_get true_branch (ir_blocks s)) ;;
    cbranch builder conditional false_block true_block ;;;
    ret true
  else if String.eqb opname "BRANCHIND" then
    (* [builder.goto_block(lhs)] only builds a context manager that is never
       entered: nothing is emitted. *)
    i0 <~ item inputs 0 ;;
    fetch_lhs builder i0 ;;;
    ret branched
  else if String.eqb opname "CALL" then
    i0 <~ item inputs 0 ;;
    let call_target := vn_symbol i0 in
    args <~ call_arguments builder (tail inputs) [] ;;
    result <~
      (if elem_str call_target instrumentation_list then
         func_call <~ instrument call_target ;;
         match func_call with
         | Some f => r <~ call builder f [] ;; ret (Some r)
         | None => ret None
         end
       else
         s <~ get ;;
         f <~ subscript (functions_ir s !! call_target) ;;
         s <~ get ;;
         match function_args s f with
         | [] => r <~ call builder f [] ;; ret (Some r)
         | _ => r <~ call builder f args ;; ret (Some r)
         end) ;;
    match result, target with
    | Some r, Some _ => fetch_store_output builder target r ;;; ret branched
    | _, _ => ret branched
    end
  else if String.eqb opname "CALLIND" then
    i0 <~ item inputs 0 ;;
    let call_target := vn_symbol i0 in
    s <~ get ;;
    ir_func <~ match module_globals s !! call_target with
               | None => new_function void_type [] call_target
               | Some f => ret f
               end ;;
    call builder ir_func [] ;;;
    ret branched
  else if String.eqb opname "RETURN" then
    s <~ get ;;
    (if py_eq (return_type s) (PyStr "void") then ret_void builder
     else
       i1 <~ item inputs 1 ;;
       lhs <~ fetch_lhs builder i1 ;;
       ret_ builder lhs) ;;;
    ret true
  else if String.eqb opname "INT_EQUAL" then
    reconciled_arm (icmp "eq") builder instruction ;;; ret branched
  else if String.eqb opname "INT_NOTEQUAL" then
    reconciled_arm (icmp "ne") builder instruction ;;; ret branched
  else if String.eqb opname "INT_SLESS" then
    reconciled_arm (icmp "slt") builder instruction ;;; ret branched
  else if String.eqb opname "INT_SLESSEQUAL" then
    reconciled_arm (icmp "sle") builder instruction ;;; ret branched
  else if String.eqb opname "INT_LESS" then
    reconciled_arm (icmp "ult") builder instruction ;;; ret branched
  else if String.eqb opname "INT_LESSEQUAL" then
    i0 <~ item inputs 0 ;;
    lhs <~ fetch_lhs builder i0 ;;
    i1 <~ item inputs 1 ;;
    rhs <~ fetch_rhs builder i1 ;;
    reconcile lhs rhs ;;;
    icmp "ule" builder lhs rhs ;;;
    ret branched
  else if String.eqb opname "INT_ZEXT" then
    i0 <~ item inputs 0 ;;
    lhs <~ fetch_lhs builder i0 ;;
    out <~ deref target ;;
    result <~ castop "zext" builder lhs (IntType (8 * vn_size out)) ;;
    fetch_store_output builder target result ;;;
    ret branched
  else if String.eqb opname "INT_SEXT" then
    i0 <~ item inputs 0 ;;
    lhs <~ fetch_lhs builder i0 ;;
    out <~ deref target ;;
    result <~ castop "sext" builder lhs (IntType (8 * vn_size out)) ;;
    fetch_store_output builder target result ;;;
    ret branched
  else if String.eqb opname "INT_ADD" then
    reconciled_arm (binop "add") builder instruction ;;; ret branched
  else if String.eqb opname "INT_SUB" then
    reconciled_arm (binop "sub") builder instruction ;;; ret branched
  else if String.eqb opname "INT_2COMP" then
    i0 <~ item inputs 0 ;;
    input0 <~ fetch builder i0 ;;
    result <~ neg builder input0 ;;
    fetch_store_output builder target result ;;;
    ret branched
  else if String.eqb opname "INT_XOR" then
    i0 <~ item inputs 0 ;;
    input0 <~ fetch builder i0 ;;
    i1 <~ item inputs 1 ;;
    input1 <~ fetch builder i1 ;;
    result <~ binop "xor" builder input0 input1 ;;
    fetch_store_output builder target result ;;;
    ret branched
  else if String.eqb opname "INT_AND" then
    reconciled_arm (binop "and") builder instruction ;;; ret branched
  else if String.eqb opname "INT_OR" then
    (* the check reads [lhs] and [rhs], which this arm never assigns *)
    i0 <~ item inputs 0 ;;
    input0 <~ fetch builder i0 ;;
    i1 <~ item inputs 1 ;;
    input1 <~ fetch builder i1 ;;
    s <~ get ;;
    lhs <~ local_var (var_lhs s) ;;
    rhs <~ local_var (var_rhs s) ;;
    reconcile lhs rhs ;;;
    result <~ binop "or" builder input0 input1 ;;
    fetch_store_output builder target result ;;;
    ret branched
  else if String.eqb opname "INT_LEFT" then
    reconciled_arm (binop "shl") builder instruction ;;; ret branched
  else if String.eqb opname "INT_RIGHT" then
    reconciled_arm (binop "lshr") builder instruction ;;; ret branched
  else if String.eqb opname "INT_SRIGHT" then
    reconciled_arm (binop "ashr") builder instruction ;;; ret branched
  else if String.eqb opname "INT_MULT" then
    reconciled_arm (binop "mul") builder instruction ;;; ret branched
  else if String.eqb opname "INT_DIV" then
    reconciled_arm (binop "udiv") builder instruction ;;; ret branched
  else if String.eqb opname "INT_SDIV" then
    reconciled_arm (binop "sdiv") builder instruction ;;; ret branched
  else if String.eqb opname "INT_REM" then
    reconciled_arm (binop "urem") builder instruction ;;; ret branched
  else if String.eqb opname "INT_SREM" then
    reconciled_arm (binop "srem") builder instruction ;;; ret branched
  else if String.eqb opname "BOOL_NEGATE" then
    i0 <~ item inputs 0 ;;
    lhs <~ fetch_lhs builder i0 ;;
    result <~ not_ builder lhs ;;
    fetch_store_output builder target result ;;;
    ret branched
  else if String.eqb opname "BOOL_XOR" then
    plain_arm (binop "xor") builder instruction ;;; ret branched
  else if String.eqb opname "BOOL_AND" then
    plain_arm (binop "and") builder instruction ;;; ret branched
  else if String.eqb opname "BOOL_OR" then
    plain_arm (binop "or") builder instruction ;;; ret branched
  else if String.eqb opname "PIECE" then
    out <~ deref target ;;
    let output_size := (8 * vn_size out)%N in
    i1 <~ item inputs 1 ;;
    let least_sig_size := (8 * vn_size i1)%N in
    i0 <~ item inputs 0 ;;
    input_most_sig <~ fetch builder i0 ;;
    input_least_sig <~ fetch builder i1 ;;
    input_least_sig <~ castop "zext" builder input_least_sig (IntType output_size) ;;
    input_most_sig <~ castop "zext" builder input_most_sig (IntType output_size) ;;
    shift <~ constant (IntType output_size) (Z.of_N least_sig_size) ;;
    input_most_sig <~ binop "shl" builder input_most_sig shift ;;
    result <~ binop "or" builder input_least_sig input_most_sig ;;
    fetch_store_output builder target result ;;;
    ret branched
  else if String.eqb opname "SUBPIECE" then
    i0 <~ item inputs 0 ;;
    argument <~ fetch builder i0 ;;
    i1 <~ item inputs 1 ;;
    fetch builder i1 ;;;
    result <~ (if String.eqb (vn_symbol i1) "0"
               then castop "trunc" builder argument (IntType (vn_size i1 * 8))
               else raise (Exception "Unexpected subpiece operation")) ;;
    fetch_store_output builder target result ;;;
    ret branched
  else if String.eqb opname "CAST" then
    input_target <~ first_input instruction ;;
    result <~ fetch builder input_target ;;
    fetch_store_output builder target result ;;;
    ret branched
  else if String.eqb opname "PTRADD" then
    i0 <~ item inputs 0 ;;
    input0 <~ fetch builder i0 ;;
    i1 <~ item inputs 1 ;;
    input1 <~ fetch builder i1 ;;
    i2 <~ item inputs 2 ;;
    input2 <~ fetch builder i2 ;;
    input1_times_input2 <~ binop "mul" builder input1 input2 ;;
    result <~ binop "add" builder input0 input1_times_input2 ;;
    fetch_store_output builder target result ;;;
    ret branched
  else if String.eqb opname "PTRSUB" then
    plain_arm (binop "add") builder instruction ;;; ret branched
  else raise (Exception ("Not expected: " +:+ opname)).

(** The loop over the operations of one block. *)
Fixpoint lift_ops (builder : vid) (xml_block : xml_block) (branched : bool)
    (l : list op) : M bool :=
  match l with
  | [] => ret branched
  | instruction :: rest =>
      branched <~ lift_op builder xml_block branched instruction ;;
      lift_ops builder xml_block branched rest
  end.

(** The body of the loop over the blocks. *)
Definition lift_block (label : string) : M unit :=
  s <~ get ;;
  ir_block <~ subscript (dict_get label (ir_blocks s)) ;;
  xml_block <~ subscript (dict_get label (xml_blocks s)) ;;
  let builder := ir_block in
  branched <~ lift_ops builder xml_block false (ops xml_block) ;;
  if negb branched then
    out <~ deref (head (out_branches xml_block)) ;;
    s <~ get ;;
    block <~ subscript (dict_get out (ir_blocks s)) ;;
    branch builder block ;;;
    ret tt
  else ret tt.

Definition lift_function : M unit :=
  s <~ get ;;
  for_each (map fst (ir_blocks s)) lift_block.

(** [Function.__init__]: the fields of a new [Function], then
    [recover_locals] and [build_cfg]. *)
Definition function_init (function : string) (x : function_xml) : M unit :=
  s <~ get ;;
  ir_func <~ subscript (functions_ir s !! function) ;;
  modify (λ s, State (heap s) (identified_types s) (module_globals s) (global_vars s)
                 (instrumentation s) (functions_ir s) (options_stack s) (filename s)
                 ir_func (return_signature x).2 ∅ ∅ ∅ [] [] None None) ;;;
  entry <~ recover_locals function x ;;
  build_cfg entry x.

(** The loop body of [Lifter.populate_functions]. *)
Definition populate_function (function : string) (x : function_xml) : M unit :=
  function_init function x ;;;
  lift_function.

(** [lift_binary]: a fresh module, then the [Lifter] constructor. *)
Definition initial_state (filename stack : string) : state :=
  State [] ∅ ∅ ∅ ∅ ∅ stack filename 0%nat (PyStr "void") ∅ ∅ ∅ [] [] None None.

Definition lift_binary (decompile_info : list (string * function_xml))
    (filename stack : string) : result unit :=
  (fish_globals decompile_info ;;;
   create_function_signatures decompile_info ;;;
   for_each decompile_info (λ f, populate_function f.1 f.2))
  (initial_state filename stack).

(** What a computation returned, and the state it left. *)
Definition value_of {A} (r : result A) : option A :=
  match r with Ok a _ => Some a | Raise _ => None end.

Definition state_of {A} (r : result A) : option state :=
  match r with Ok _ s => Some s | Raise _ => None end.

(** ** Vocabulary of the properties *)

Local Open Scope nat_scope.
Local Open Scope list_scope.




(** The state after a new object, and after an instruction inserted at the
    end of a block. *)
Definition allocated (d : vdesc) (t : ty) (s : state) : state :=
  with_heap (heap s ++ [VObj d t]) s.

Definition inserted (builder : vid) (opname : string) (operands : list vid) (t : ty)
    (s : state) : state :=
  with_heap (alter (block_append (length (heap s)) false) builder
               (heap s ++ [VObj (Instruction opname operands) t])) s.

(** [isinstance(t, ir.PointerType)] *)
Definition is_pointer (t : ty) : bool :=
  match t with PointerType _ => true | _ => false end.

(** The handles kept for globals and locals are pointers. *)
Definition pointers_ok (s : state) : Prop :=
  map_Forall (λ _ p, is_pointer (type_of s p) = true) (global_vars s) ∧
  map_Forall (λ _ p, is_pointer (type_of s p) = true) (locals s).

(** [s'] differs from [s] in its heap only, which kept its objects, their
    types and the argument lists of its functions. *)
Definition grows (s s' : state) : Prop :=
  s' = with_heap (heap s') s ∧
  length (heap s) ≤ length (heap s') ∧
  (∀ v, v < length (heap s) → type_of s' v = type_of s v) ∧
  (∀ v, v < length (heap s) → function_args s' v = function_args s v).

(** The symbols [fetch_input] refuses. *)
Definition fatal_symbol (arg : varnode) : bool :=
  Py.contains "argv" (vn_symbol arg) || Py.contains "argc" (vn_symbol arg).


(** The state after [v.type = t]. *)
Definition retyped (v : vid) (t : ty) (s : state) : state :=
  with_heap (alter (λ o, VObj (v_desc o) t) v (heap s)) s.

(** A name the resolver keeps in the temporaries table: a [register] or
    [unique] name that is no parameter, global or local slot. *)
Definition temporary_name (s : state) (symbol : string) : Prop :=
  Py.contains "register" symbol || Py.contains "unique" symbol = true ∧
  Py.contains "var" symbol = false ∧
  Py.contains "arg" symbol = false ∧
  locals s !! symbol = None ∧
  global_vars s !! symbol = None.

(** The return type as the specification words it: void for the text
    [void], a 64-bit integer for [undefined8], otherwise an integer of eight
    bits per declared byte. *)
Definition spec_return_type (text : string) (size : N) : ty :=
  if String.eqb text "void" then VoidType
  else if String.eqb text "undefined8" then IntType 64
  else IntType (8 * size).

(** The test of the RETURN arm: does a function with this mark return a
    value? *)
Definition returns_value (mark : pyval) : bool := negb (py_eq mark (PyStr "void")).

(** ** Concrete artifacts *)

(** A function of one block at [0x1000] holding the given operations, with
    no arguments, no locals and the given return type text. *)
Definition one_block (return_text : string) (return_size : N) (l : list op) : function_xml :=
  FunctionXml [] return_text return_size [] [XmlBlock "0x1000" l []].

(** The lifter run on a binary of the single function [f]. *)
Definition lift_one (x : function_xml) : result unit :=
  lift_binary [("f", x)] "a.out" "no_option".

(** The lifter stopped before the [lift_function] of one function of a
    binary, at the first block of that function. *)
Definition at_first_block_of (decompile_info : list (string * function_xml))
    (function : string) : M vid :=
  fish_globals decompile_info ;;;
  create_function_signatures decompile_info ;;;
  x <~ subscript (dict_get function decompile_info) ;;
  function_init function x ;;;
  s <~ get ;;
  item (map snd (ir_blocks s)) 0.


(** The state a computation leaves, the starting state if it raises. *)
Definition after {A} (c : M A) (s : state) : state :=
  match c s with Ok _ s' => s' | Raise _ => s end.



(** The instructions of a given name in a state, each as its operands. *)
Definition operands_of (name : string) (s : state) : list (list vid) :=
  omap (λ o, match v_desc o with
             | Instruction n operands => if String.eqb n name then Some operands else None
             | _ => None
             end) (heap s).

(** The names of the functions declared in a state. *)
Definition declared_functions (s : state) : list string :=
  omap (λ o, match v_desc o with Function n _ => Some n | _ => None end) (heap s).

(** The object behind a handle: a block by its label, anything else by its
    description. *)
Definition describe (s : state) (v : vid) : option vdesc :=
  match v_desc <$> heap s !! v with
  | Some (Block name _ _) => Some (Block name [] None)
  | d => d
  end.



Definition compare_ops (opn : string) : list op :=
  [Op opn [vn "1" 4; vn "2" 4] (Some (vn "unique0x100" 1)); Op "RETURN" [] None].

(** Out-edges [0x00000014, 0x00000010] and a CBRANCH whose true symbol is
    [0x00000010]. *)
Definition cbranch_artifact : function_xml :=
  FunctionXml [] "void" 0 []
    [XmlBlock "0x1000" [Op "CBRANCH" [vn "0x00000010" 8; vn "true" 1] None]
       ["0x00000014"; "0x00000010"];
     XmlBlock "0x10" [Op "RETURN" [] None] [];
     XmlBlock "0x14" [Op "RETURN" [] None] []].

Definition instrumented_ops (targets : list string) : list op :=
  map (λ t, Op "CALL" [vn t 8] None) targets ++ [Op "RETURN" [] None].

Definition register_copy_ops : list op :=
  [Op "COPY" [vn "5" 8] (Some (vn "register0x0" 8));
   Op "RETURN" [vn "0" 8; vn "register0x0" 8] None].


(** A binary of two functions: [g] takes one four-byte argument, [f] has a
    local, uses a register and calls [g]. *)
Definition demo_binary : list (string * function_xml) :=
  [("g", FunctionXml [XmlVar "arg1" 4] "undefined8" 8 []
           [XmlBlock "0x2000" [Op "RETURN" [vn "0" 8; vn "arg1" 4] None] []]);
   ("f", FunctionXml [] "void" 0 [XmlVar "var_10h" 4]
           [XmlBlock "0x1000"
              [Op "COPY" [vn "5" 8] (Some (vn "register0x0" 8));
               Op "CALL" [vn "g" 8; vn "7" 4] (Some (vn "unique0x100" 8));
               Op "RETURN" [] None] []])].

(** The state in which the body of [f] is about to be lifted. *)
Definition demo_state : state :=
  Eval vm_compute in
    after (at_first_block_of demo_binary "f") (initial_state "a.out" "no_option").

(** [demo_state] after the two inputs of an INT_ADD of a four-byte and an
    eight-byte constant were fetched into [lhs] and [rhs]. *)
Definition demo_state_lhs : state :=
  Eval vm_compute in after (fetch_lhs 6 (vn "1" 4)) demo_state.

Definition demo_state_rhs : state :=
  Eval vm_compute in after (fetch_rhs 6 (vn "2" 8)) demo_state_lhs.

(** ** Vocabulary of the further properties *)

(** The state after a terminator was set at the end of a block. *)
Definition terminated_with (builder : vid) (opname : string) (operands : list vid)
    (s : state) : state :=
  with_heap (alter (block_append (length (heap s)) true) builder
               (heap s ++ [VObj (Instruction opname operands) VoidType])) s.

(** The operation names [lift_function] has an arm for. *)
Definition known_opcodes : list string :=
  ["COPY"; "LOAD"; "STORE"; "BRANCH"; "CBRANCH"; "BRANCHIND"; "CALL"; "CALLIND"; "RETURN";
   "INT_EQUAL"; "INT_NOTEQUAL"; "INT_SLESS"; "INT_SLESSEQUAL"; "INT_LESS"; "INT_LESSEQUAL";
   "INT_ZEXT"; "INT_SEXT"; "INT_ADD"; "INT_SUB"; "INT_2COMP"; "INT_XOR"; "INT_AND";
   "INT_OR"; "INT_LEFT"; "INT_RIGHT"; "INT_SRIGHT"; "INT_MULT"; "INT_DIV"; "INT_SDIV";
   "INT_REM"; "INT_SREM"; "BOOL_NEGATE"; "BOOL_XOR"; "BOOL_AND"; "BOOL_OR"; "PIECE";
   "SUBPIECE"; "CAST"; "PTRADD"; "PTRSUB"].

(** The intrinsic [instrument] declares for a source symbol. *)
Definition intrinsic_of (call_target : string) : option (ty * string) :=
  if String.eqb call_target "sym.path_goal" then Some (void_type, "verifier.error")
  else if String.eqb call_target "sym.path_nongoal" then Some (void_type, "verifier.error")
  else if String.eqb call_target "sym.imp.rand" then Some (int32, "nd")
  else None.

(** The symbols of [fetch_input] that end in its exception. *)
Definition fatal_resolved (arg : varnode) : bool :=
  Py.contains "argv" (resolved_symbol arg) || Py.contains "argc" (resolved_symbol arg).

(** A name that is only in the temporaries table, where it holds [v]. *)
Definition held_temporary (s : state) (symbol : string) (v : vid) : Prop :=
  Py.contains "var" symbol = false ∧
  Py.contains "arg" symbol = false ∧
  global_vars s !! symbol = None ∧
  locals s !! symbol = None ∧
  temps s !! symbol = Some v.

(** A binary whose function [f] reads the four-byte object [obj.counter]. *)
Definition global_binary : list (string * function_xml) :=
  [("f", one_block "void" 0
           [Op "COPY" [vn "obj.counter" 4] (Some (vn "unique0x10" 4));
            Op "RETURN" [] None])].

(** The state in which the body of that [f] is about to be lifted, after an
    eight-byte constant was resolved. *)
Definition global_state : state :=
  Eval vm_compute in
    after (fetch 3 (vn "9" 8))
      (after (at_first_block_of global_binary "f") (initial_state "a.out" "no_option")).

(** [demo_state] after a four-byte constant was copied to [unique0x10]. *)
Definition temp_state : state :=
  Eval vm_compute in
    after (lift_op 6 (XmlBlock "0x1000" [] []) false
             (Op "COPY" [vn "5" 4] (Some (vn "unique0x10" 4)))) demo_state.

(** [v] is a basic block. *)
Definition is_block (s : state) (v : vid) : bool :=
  match v_desc <$> heap s !! v with
  | Some (Block _ _ _) => true
  | _ => false
  end.

(** What an object keeps while the body of a function is lifted: its type
    if it is a pointer, its being a block, and its terminator if it has
    one. *)
Definition keeps (o o' : vobj) : Prop :=
  (is_pointer (v_type o) = true → v_type o' = v_type o) ∧
  match v_desc o with
  | Block _ _ t =>
      match v_desc o' with
      | Block _ _ t' => is_Some t → is_Some t'
      | _ => False
      end
  | _ => True
  end.

(** [s'] has the local and global tables and the blocks of [s], and every
    object of [s] with what it keeps. *)
Definition stable (s s' : state) : Prop :=
  locals s' = locals s ∧
  global_vars s' = global_vars s ∧
  ir_blocks s' = ir_blocks s ∧
  xml_blocks s' = xml_blocks s ∧
  ∀ v o, heap s !! v = Some o → ∃ o', heap s' !! v = Some o' ∧ keeps o o'.

(** Every successful run of [c] leaves a stable state. *)
Definition steps {A} (c : M A) : Prop :=
  ∀ s a s', c s = Ok a s' → stable s s'.

(** Every successful run of [c] from a state where [builder] is a block
    leaves a stable state in which that block has a terminator. *)
Definition terminates {A} (builder : vid) (c : M A) : Prop :=
  ∀ s a s', is_block s builder = true → c s = Ok a s' →
            stable s s' ∧ is_terminated s' builder = true.

(** A successful run of [c], which answers the new value of [branched],
    leaves a stable state, and answers true only if [branched] was true
    already or the block now has a terminator. *)
Definition sets_branched (builder : vid) (branched : bool) (c : M bool) : Prop :=
  ∀ s b s', is_block s builder = true → c s = Ok b s' →
            stable s s' ∧ (b = true → branched = true ∨ is_terminated s' builder = true).

(** [demo_state] after the body of [f] was lifted. *)
Definition demo_state_lifted : state :=
  Eval vm_compute in after lift_function demo_state.

(** The blocks of the function being lifted are basic blocks. *)
Definition blocks_ok (s : state) : Prop :=
  Forall (λ p, is_block s p.2 = true) (ir_blocks s).

(** The handles of the global table are pointers. *)
Definition globals_ok (s : state) : Prop :=
  map_Forall (λ _ p, is_pointer (type_of s p) = true) (global_vars s).

(** A partial-correctness triple. *)
Definition hoare {A} (P : state → Prop) (c : M A) (Q : A → state → Prop) : Prop :=
  ∀ s a s', P s → c s = Ok a s' → Q a s'.

(** What holds while a [Function] is set up, [entry] being its entry
    block. *)
Definition setup_ok (entry : vid) (s : state) : Prop :=
  pointers_ok s ∧ blocks_ok s ∧ is_block s entry = true.

(** The function [f] of [demo_binary], and the module of [demo_binary] once
    its globals and signatures are in place, before and after [f] is set up
    and lifted. *)
Definition demo_f : function_xml :=
  Eval vm_compute in default (FunctionXml [] "" 0 [] []) (dict_get "f" demo_binary).

Definition demo_module_state : state :=
  Eval vm_compute in
    after (fish_globals demo_binary ;;; create_function_signatures demo_binary)
      (initial_state "a.out" "no_option").

Definition demo_populated_state : state :=
  Eval vm_compute in after (populate_function "f" demo_f) demo_module_state.






(** * Properties *)

(** ** Python primitives on concrete inputs *)

Example format_label_short : format_label "0x10" = "0x00000010".
Proof. reflexivity. Qed.

Example format_label_bare : format_label "1f" = "0x0000001f".
Proof. reflexivity. Qed.

Example hex_17 : Py.hex 17%Z = "0x11".
Proof. reflexivity. Qed.

Example int_hex_label : Py.int_of 16%Z "0x00000010" = Some 16%Z.
Proof. reflexivity. Qed.

Example int_dec_underscore : Py.int_of 10%Z " 1_000 " = Some 1000%Z.
Proof. reflexivity. Qed.

Example int_dec_bad : Py.int_of 10%Z "0x10" = None.
Proof. reflexivity. Qed.

(** ** Block labels *)








(** ** The heap under the builder *)

Lemma alloc_eq d t s : alloc d t s = Ok (length (heap s)) (allocated d t s).
Proof. reflexivity. Qed.

Lemma insert_instr_eq builder opname operands t s :
  insert_instr builder opname operands t s
  = Ok (length (heap s)) (inserted builder opname operands t s).
Proof. reflexivity. Qed.

Lemma block_append_type i term o : v_type (block_append i term o) = v_type o.
Proof. unfold block_append. by destruct (v_desc o). Qed.

Lemma type_of_alter_block s i term b (h : list vobj) v :
  type_of (with_heap (alter (block_append i term) b h) s) v = type_of (with_heap h s) v.
Proof.
  unfold type_of. simpl.
  destruct (decide (b = v)) as [->|Hne].
  - rewrite list_lookup_alter_eq. destruct (h !! v) as [o|]; simpl; [|done].
    apply block_append_type.
  - by rewrite list_lookup_alter_ne.
Qed.

Lemma type_of_allocated_old d t s v :
  v < length (heap s) → type_of (allocated d t s) v = type_of s v.
Proof. intros Hv. unfold type_of, allocated. simpl. by rewrite lookup_app_l. Qed.

Lemma type_of_allocated_new d t s : type_of (allocated d t s) (length (heap s)) = t.
Proof.
  unfold type_of, allocated. simpl.
  rewrite lookup_app_r by lia. by rewrite Nat.sub_diag.
Qed.

Lemma type_of_inserted_old b opname operands t s v :
  v < length (heap s) → type_of (inserted b opname operands t s) v = type_of s v.
Proof.
  intros Hv. unfold inserted. rewrite type_of_alter_block.
  apply (type_of_allocated_old (Instruction opname operands) t s v Hv).
Qed.

Lemma type_of_inserted_new b opname operands t s :
  type_of (inserted b opname operands t s) (length (heap s)) = t.
Proof.
  unfold inserted. rewrite type_of_alter_block.
  apply (type_of_allocated_new (Instruction opname operands) t s).
Qed.

Lemma length_allocated d t s : length (heap (allocated d t s)) = S (length (heap s)).
Proof. unfold allocated. simpl. rewrite length_app. simpl. lia. Qed.

Lemma length_inserted b opname operands t s :
  length (heap (inserted b opname operands t s)) = S (length (heap s)).
Proof. unfold inserted. simpl. rewrite length_alter, length_app. simpl. lia. Qed.

Lemma function_args_alter_block s i term b (h : list vobj) v :
  function_args (with_heap (alter (block_append i term) b h) s) v
  = function_args (with_heap h s) v.
Proof.
  unfold function_args. simpl.
  destruct (decide (b = v)) as [->|Hne].
  - rewrite list_lookup_alter_eq. destruct (h !! v) as [o|]; simpl; [|done].
    unfold block_append. by destruct (v_desc o) eqn:E; simpl; rewrite ?E.
  - by rewrite list_lookup_alter_ne.
Qed.

Lemma function_args_allocated_old d t s v :
  v < length (heap s) → function_args (allocated d t s) v = function_args s v.
Proof. intros Hv. unfold function_args, allocated. simpl. by rewrite lookup_app_l. Qed.

Lemma function_args_inserted_old b opname operands t s v :
  v < length (heap s) → function_args (inserted b opname operands t s) v = function_args s v.
Proof.
  intros Hv. unfold inserted. rewrite function_args_alter_block.
  apply (function_args_allocated_old (Instruction opname operands) t s v Hv).
Qed.

Lemma grows_refl s : grows s s.
Proof. split; [by destruct s | split; [lia | by split]]. Qed.

Lemma grows_trans s1 s2 s3 : grows s1 s2 → grows s2 s3 → grows s1 s3.
Proof.
  intros (E1 & L1 & T1 & F1) (E2 & L2 & T2 & F2). split; [|split; [|split]].
  - rewrite E2, E1. by destruct s1.
  - lia.
  - intros v Hv. rewrite T2 by lia. by apply T1.
  - intros v Hv. rewrite F2 by lia. by apply F1.
Qed.

Lemma grows_allocated d t s : grows s (allocated d t s).
Proof.
  split; [by destruct s | split; [|split]].
  - rewrite length_allocated. lia.
  - intros v Hv. by apply type_of_allocated_old.
  - intros v Hv. by apply function_args_allocated_old.
Qed.

Lemma grows_inserted b opname operands t s : grows s (inserted b opname operands t s).
Proof.
  split; [by destruct s | split; [|split]].
  - rewrite length_inserted. lia.
  - intros v Hv. by apply type_of_inserted_old.
  - intros v Hv. by apply function_args_inserted_old.
Qed.

Lemma is_pointer_lt s v : is_pointer (type_of s v) = true → v < length (heap s).
Proof.
  unfold type_of. intros H. apply lookup_lt_is_Some.
  destruct (heap s !! v); [eauto | discriminate].
Qed.

Lemma is_pointer_type t : is_pointer t = true → ∃ pointee, t = PointerType pointee.
Proof. destruct t; try discriminate. eauto. Qed.

Lemma grows_pointers_ok s s' : grows s s' → pointers_ok s → pointers_ok s'.
Proof.
  intros (E & L & T & _) [Hg Hl]. rewrite E. split; simpl.
  - intros name p Hp. rewrite <- E. rewrite T; [by apply (Hg name) |].
    apply is_pointer_lt. by apply (Hg name).
  - intros name p Hp. rewrite <- E. rewrite T; [by apply (Hl name) |].
    apply is_pointer_lt. by apply (Hl name).
Qed.

Lemma load_pointer builder ptr t s :
  type_of s ptr = PointerType t →
  load builder ptr s = Ok (length (heap s)) (inserted builder "load" [ptr] t s).
Proof. intros H. unfold load, bind, get_type. by rewrite H. Qed.

(** ** The constant fallback of the resolver *)

Lemma prefix_append p q s : String.prefix (p +:+ q) s = true → String.prefix p s = true.
Proof.
  revert s. induction p as [|a p IH]; intros s H; [by destruct s |].
  destruct s as [|b s]; [done |].
  change (String.prefix (String a (p +:+ q)) (String b s) = true) in H.
  simpl in *. destruct (ascii_dec a b); [by apply IH | done].
Qed.

Lemma contains_cons pat c s :
  Py.contains pat (String c s)
  = if String.prefix pat (String c s) then true else Py.contains pat s.
Proof. reflexivity. Qed.

Lemma contains_empty pat : Py.contains pat "" = String.prefix pat "".
Proof. unfold Py.contains. by destruct (String.prefix pat ""). Qed.

Lemma contains_append p q s : Py.contains (p +:+ q) s = true → Py.contains p s = true.
Proof.
  induction s as [|c s IH].
  - rewrite !contains_empty. apply prefix_append.
  - rewrite !contains_cons.
    destruct (String.prefix (p +:+ q) (String c s)) eqn:E.
    + by rewrite (prefix_append p q _ E).
    + intros H. rewrite (IH H). by destruct (String.prefix p (String c s)).
Qed.

Lemma not_contains_append p q s : Py.contains p s = false → Py.contains (p +:+ q) s = false.
Proof.
  intros H. destruct (Py.contains (p +:+ q) s) eqn:E; [|done].
  by rewrite (contains_append p q s E) in H.
Qed.


(** ** Totality of the resolver *)

Lemma gep_pointer builder p c t s :
  type_of s p = PointerType t →
  is_int (type_of s c) = true →
  gep builder p [c] s
  = Ok (length (heap s)) (inserted builder "getelementptr" [p; c] (PointerType t) s).
Proof.
  intros Hp Hc. unfold gep, bind, get. simpl. rewrite Hp. simpl. rewrite Hc.
  rewrite insert_instr_eq. by destruct t.
Qed.

Ltac grows_step :=
  repeat first
    [ apply grows_refl | apply grows_allocated | apply grows_inserted
    | eapply grows_trans; [| first [ apply grows_allocated | apply grows_inserted ] ] ].

Ltac returned :=
  unfold constant; rewrite ?insert_instr_eq, ?alloc_eq;
  eexists _, _; split; [reflexivity | grows_step].

Lemma fetch_input_returns (s : state) (builder : vid) (arg : varnode) :
  pointers_ok s →
  Py.contains "argv" (resolved_symbol arg) = false →
  Py.contains "argc" (resolved_symbol arg) = false →
  ∃ v s', fetch_input builder arg s = Ok (Some v) s' ∧ grows s s'.
Proof.
  intros [Hg Hl] Hv Hc. unfold fetch_input. rewrite Hv, Hc.
  unfold bind at 1. unfold get at 1.
  destruct (if Py.contains "arg" (resolved_symbol arg)
            then find_argument s (resolved_symbol arg) else None) as [a|].
  { returned. }
  destruct (global_vars s !! resolved_symbol arg) as [g|] eqn:Eg.
  { destruct (is_pointer_type _ (Hg _ _ Eg)) as [t Ht].
    unfold bind. rewrite (load_pointer builder g t s Ht).
    returned. }
  destruct (locals s !! resolved_symbol arg) as [p|] eqn:El.
  { pose proof (is_pointer_lt _ _ (Hl _ _ El)) as Hlt.
    destruct (is_pointer_type _ (Hl _ _ El)) as [t Ht].
    destruct (local_sizes s !! resolved_symbol arg).
    { unfold bind. rewrite (load_pointer builder p t s Ht).
      returned. }
    unfold bind at 1.
    destruct (if Py.contains "arg" (resolved_symbol arg) &&
                 match function_args s (ir_func s) with [] => false | _ :: _ => true end
              then None else offset_attributes arg) as [[offset n]|].
    - unfold bind at 1. unfold constant. rewrite alloc_eq.
      rewrite (gep_pointer builder p (length (heap s)) t).
      2:{ by rewrite type_of_allocated_old. }
      2:{ by rewrite type_of_allocated_new. }
      unfold bind at 1. rewrite (load_pointer builder _ t).
      2:{ apply type_of_inserted_new. }
      unfold bind, get_type.
      match goal with |- context [bool_decide ?P] => destruct (bool_decide P) end; returned.
    - unfold ret at 1. unfold bind at 1. rewrite (load_pointer builder p t s Ht).
      unfold bind, get_type.
      match goal with |- context [bool_decide ?P] => destruct (bool_decide P) end; returned. }
  destruct (temps s !! resolved_symbol arg) as [v|].
  { unfold bind, get_type.
    destruct (bool_decide (type_of s v = void_type)).
    { returned. }
    destruct (bool_decide (type_of s v ≠ IntType (requested_width arg)) && bool_decide (type_of s v ≠ int1)).
    - returned.
    - returned. }
  destruct (Py.contains "false" (resolved_symbol arg)).
  { returned. }
  destruct (Py.contains "true" (resolved_symbol arg)).
  { returned. }
  unfold try_except, bind, int_value.
  destruct (parse_constant (resolved_symbol arg)) as [n|];
    returned.
Qed.

Lemma prefix_split_head pat c s :
  String.prefix pat (Py.split_head c s) = true → String.prefix pat s = true.
Proof.
  revert pat. induction s as [|a s IH]; intros pat H; [done |].
  simpl in H. destruct (Ascii.eqb a c).
  - by destruct pat.
  - destruct pat as [|b pat]; [done |]. simpl in *.
    destruct (ascii_dec b a); [by apply IH | done].
Qed.

Lemma contains_split_head pat c s :
  Py.contains pat (Py.split_head c s) = true → Py.contains pat s = true.
Proof.
  induction s as [|a s IH]; [done |].
  rewrite contains_cons. simpl Py.split_head. destruct (Ascii.eqb a c) eqn:E.
  - rewrite contains_empty. intros H. by destruct pat.
  - rewrite contains_cons. intros H.
    destruct (String.prefix pat (String a (Py.split_head c s))) eqn:Ep.
    + assert (String.prefix pat (String a s) = true) as ->; [|done].
      apply (prefix_split_head pat c (String a s)). simpl. by rewrite E.
    + rewrite (IH H). by destruct (String.prefix pat (String a s)).
Qed.

Lemma not_fatal_resolved arg :
  fatal_symbol arg = false →
  Py.contains "argv" (resolved_symbol arg) = false
  ∧ Py.contains "argc" (resolved_symbol arg) = false.
Proof.
  unfold fatal_symbol, resolved_symbol. intros H.
  apply orb_false_elim in H as [Hv Hc].
  destruct (Py.contains "var" (vn_symbol arg)); [|done].
  split.
  - destruct (Py.contains "argv" (Py.split_head "." (vn_symbol arg))) eqn:E; [|done].
    by rewrite (contains_split_head _ _ _ E) in Hv.
  - destruct (Py.contains "argc" (Py.split_head "." (vn_symbol arg))) eqn:E; [|done].
    by rewrite (contains_split_head _ _ _ E) in Hc.
Qed.

Lemma call_arguments_keeps_all builder rest :
  ∀ s args,
    pointers_ok s →
    forallb (λ a, negb (fatal_symbol a)) rest = true →
    ∃ args' s',
      call_arguments builder rest args s = Ok args' s'
      ∧ length args' = length args + length rest
      ∧ grows s s'.
Proof.
  induction rest as [|arg rest IH]; intros s args Hok Hrest.
  - exists args, s. split; [done | split; [simpl; lia | apply grows_refl]].
  - simpl in Hrest. apply andb_prop in Hrest as [Harg Hrest].
    apply negb_true_iff in Harg. destruct (not_fatal_resolved arg Harg) as [Hv Hc].
    destruct (fetch_input_returns s builder arg Hok Hv Hc) as (v & s1 & Hfetch & Hgrow).
    destruct (IH s1 (args ++ [v]) (grows_pointers_ok _ _ Hgrow Hok) Hrest)
      as (args' & s' & Hcall & Hlen & Hgrow').
    exists args', s'. split; [|split].
    + simpl. unfold bind. by rewrite Hfetch.
    + rewrite Hlen, length_app. simpl. lia.
    + by eapply grows_trans.
Qed.

Lemma bind_ret_l {A B} (a : A) (k : A → M B) : bind (ret a) k = k a.
Proof. reflexivity. Qed.

Lemma bind_get {B} (k : state → M B) s : bind get k s = k s s.
Proof. reflexivity. Qed.

Lemma bind_ok {A B} (c : M A) (k : A → M B) s a s' :
  c s = Ok a s' → bind c k s = k a s'.
Proof. intros H. unfold bind. by rewrite H. Qed.

Lemma lift_op_call builder blk branched ins out :
  lift_op builder blk branched (Op "CALL" ins out)
  = (i0 <~ item ins 0 ;;
     let call_target := vn_symbol i0 in
     args <~ call_arguments builder (tail ins) [] ;;
     result <~
       (if elem_str call_target instrumentation_list then
          func_call <~ instrument call_target ;;
          match func_call with
          | Some f => r <~ call builder f [] ;; ret (Some r)
          | None => ret None
          end
        else
          s <~ get ;;
          f <~ subscript (functions_ir s !! call_target) ;;
          s <~ get ;;
          match function_args s f with
          | [] => r <~ call builder f [] ;; ret (Some r)
          | _ => r <~ call builder f args ;; ret (Some r)
          end) ;;
     match result, out with
     | Some r, Some _ => fetch_store_output builder out r ;;; ret branched
     | _, _ => ret branched
     end).
Proof. reflexivity. Qed.


(** ** Width reconciliation *)

Lemma type_of_retyped_same v t s :
  v < length (heap s) → type_of (retyped v t s) v = t.
Proof.
  intros Hv. unfold type_of, retyped. simpl. rewrite list_lookup_alter_eq.
  destruct (lookup_lt_is_Some_2 (heap s) v Hv) as [o Ho]. by rewrite Ho.
Qed.

Lemma type_of_retyped_other v t s u : u ≠ v → type_of (retyped v t s) u = type_of s u.
Proof. intros Hne. unfold type_of, retyped. simpl. by rewrite list_lookup_alter_ne. Qed.

Lemma desc_retyped v t s u : v_desc <$> heap (retyped v t s) !! u = v_desc <$> heap s !! u.
Proof.
  unfold retyped. simpl. destruct (decide (v = u)) as [->|Hne].
  - rewrite list_lookup_alter_eq. by destruct (heap s !! u).
  - by rewrite list_lookup_alter_ne.
Qed.

Lemma length_retyped v t s : length (heap (retyped v t s)) = length (heap s).
Proof. unfold retyped. simpl. apply length_alter. Qed.

Lemma int_type_lt s v w : type_of s v = IntType w → v < length (heap s).
Proof.
  unfold type_of. intros H. apply lookup_lt_is_Some.
  destruct (heap s !! v); [eauto | discriminate].
Qed.

Lemma fixConflictingIntType_eq s lhs rhs wl wr :
  type_of s lhs = IntType wl → type_of s rhs = IntType wr →
  fixConflictingIntType lhs rhs s
  = Ok (lhs, rhs) (retyped (if (wr <? wl)%N then rhs else lhs) (IntType (N.max wl wr)) s).
Proof.
  intros Hl Hr.
  unfold fixConflictingIntType, width_of, bind, get_type, ret, set_type, modify, retyped.
  rewrite Hl. cbv beta iota. rewrite Hr. cbv beta iota.
  destruct (wr <? wl)%N eqn:E.
  - apply N.ltb_lt in E. by rewrite N.max_l by lia.
  - apply N.ltb_ge in E. by rewrite N.max_r by lia.
Qed.

Lemma lift_op_int_add builder blk branched ins out :
  lift_op builder blk branched (Op "INT_ADD" ins out)
  = (reconciled_arm (binop "add") builder (Op "INT_ADD" ins out) ;;; ret branched).
Proof. reflexivity. Qed.

(** C4. Width reconciliation of two integer operands of unequal widths
    overwrites the type of the narrower object with the wider integer type:
    the heap keeps its objects and their descriptions (nothing is inserted in
    any block, so no [zext] or [sext]), both operands then carry the wider
    width, and an arm that reconciles, INT_ADD for one, emits its instruction
    next, on the same two objects. *)
Theorem int_add_retypes_narrower_operand
    (s s1 s2 : state) (builder : vid) (blk : xml_block) (branched : bool)
    (i0 i1 : varnode) (out : option varnode) (lhs rhs : vid) (wl wr : N)
    (opn name : string) :
  fetch_lhs builder i0 s = Ok lhs s1 →
  fetch_rhs builder i1 s1 = Ok rhs s2 →
  type_of s2 lhs = IntType wl →
  type_of s2 rhs = IntType wr →
  wl ≠ wr →
  let narrower := if (wr <? wl)%N then rhs else lhs in
  let wider := IntType (N.max wl wr) in
  let s3 := retyped narrower wider s2 in
  fixConflictingIntType lhs rhs s2 = Ok (lhs, rhs) s3
  ∧ type_of s3 lhs = wider
  ∧ type_of s3 rhs = wider
  ∧ length (heap s3) = length (heap s2)
  ∧ (∀ v, v_desc <$> heap s3 !! v = v_desc <$> heap s2 !! v)
  ∧ reconciled_arm (binop name) builder (Op opn [i0; i1] out) s
    = (result <~ insert_instr builder name [lhs; rhs] wider ;;
       fetch_store_output builder out result ;;;
       ret tt) s3
  ∧ lift_op builder blk branched (Op "INT_ADD" [i0; i1] out) s
    = (result <~ insert_instr builder "add" [lhs; rhs] wider ;;
       fetch_store_output builder out result ;;;
       ret branched) s3.
Proof.
  intros Hlhs Hrhs Hl Hr Hne narrower wider s3.
  assert (lhs ≠ rhs) as Hdiff by (intros ->; congruence).
  pose proof (int_type_lt _ _ _ Hl) as Hllt. pose proof (int_type_lt _ _ _ Hr) as Hrlt.
  assert (type_of s3 lhs = wider ∧ type_of s3 rhs = wider) as [Hl3 Hr3].
  { subst s3 narrower wider. destruct (wr <? wl)%N eqn:E.
    - apply N.ltb_lt in E. split.
      + rewrite type_of_retyped_other by done. rewrite Hl. f_equal. lia.
      + by apply type_of_retyped_same.
    - apply N.ltb_ge in E. split.
      + by apply type_of_retyped_same.
      + rewrite type_of_retyped_other by done. rewrite Hr. f_equal. lia. }
  split; [apply (fixConflictingIntType_eq s2 lhs rhs wl wr Hl Hr) |].
  split; [done | split; [done |]].
  split; [apply length_retyped | split; [apply desc_retyped |]].
  assert (∀ name opn,
            reconciled_arm (binop name) builder (Op opn [i0; i1] out) s
            = (result <~ insert_instr builder name [lhs; rhs] wider ;;
               fetch_store_output builder out result ;;;
               ret tt) s3) as Harm.
  { intros name' opn'. unfold reconciled_arm.
    change (item (inputs (Op opn' [i0; i1] out)) 0) with (ret (A:=varnode) i0).
    change (item (inputs (Op opn' [i0; i1] out)) 1) with (ret (A:=varnode) i1).
    change (output (Op opn' [i0; i1] out)) with out.
    rewrite bind_ret_l. rewrite (bind_ok _ _ _ _ _ Hlhs).
    rewrite bind_ret_l. rewrite (bind_ok _ _ _ _ _ Hrhs).
    unfold reconcile. unfold bind at 1. unfold bind at 1. unfold get_type at 1.
    unfold bind at 1. unfold get_type at 1. rewrite Hl, Hr.
    rewrite bool_decide_eq_true_2 by congruence.
    change (true && is_int (IntType wl) && is_int (IntType wr)) with true. cbv iota.
    rewrite (bind_ok _ _ _ _ _ (fixConflictingIntType_eq s2 lhs rhs wl wr Hl Hr)).
    change (retyped (if (wr <? wl)%N then rhs else lhs) (IntType (N.max wl wr)) s2) with s3.
    cbv beta. change (ret () s3) with (Ok () s3). cbv iota.
    unfold binop at 1.
    unfold bind at 1. unfold bind at 1. unfold get_type at 1.
    unfold bind at 1. unfold get_type at 1. rewrite Hl3, Hr3.
    by rewrite bool_decide_eq_false_2 by (intros H; by apply H). }
  split; [apply Harm |].
  rewrite lift_op_int_add. unfold bind at 1. rewrite Harm.
  unfold bind. destruct (insert_instr builder "add" [lhs; rhs] wider s3) as [r s4|]; [|done].
  by destruct (fetch_store_output builder out r s4).
Qed.

(** ** The temporaries table *)



(** ** Function signatures *)

Lemma return_signature_spec x :
  (return_signature x).1 = spec_return_type (fx_return_type x) (fx_return_size x).
Proof.
  unfold return_signature, spec_return_type.
  destruct (String.eqb (fx_return_type x) "undefined8") eqn:E.
  - apply String.eqb_eq in E. by rewrite E.
  - by destruct (String.eqb (fx_return_type x) "void").
Qed.

Lemma new_arguments_spec params :
  ∀ s, ∃ args s',
    new_arguments params s = Ok args s'
    ∧ grows s s'
    ∧ Forall (λ a, a < length (heap s')) args.
Proof.
  induction params as [|p params IH]; intros s.
  - exists [], s. split; [done | split; [apply grows_refl | constructor]].
  - simpl. unfold bind at 1. rewrite alloc_eq.
    destruct (IH (allocated (Argument "") p s)) as (args & s' & Hrec & Hgrow & Hlt).
    exists (length (heap s) :: args), s'. split; [|split].
    + unfold bind. by rewrite Hrec.
    + eapply grows_trans; [apply grows_allocated | done].
    + constructor; [|done]. destruct Hgrow as (_ & L & _).
      rewrite length_allocated in L. lia.
Qed.

Lemma set_arg_names_keep (l : list (vid * string)) (f : vid) :
  ∀ s, Forall (λ p, p.1 ≠ f) l →
    ∃ s', for_each l (λ p, set_arg_name p.1 p.2) s = Ok tt s'
          ∧ heap s' !! f = heap s !! f
          ∧ s' = with_heap (heap s') s.
Proof.
  induction l as [|[a name] l IH]; intros s Hne.
  - exists s. split; [done | split; [done | by destruct s]].
  - inversion Hne as [|? ? Ha Hl]; subst. simpl in Ha.
    simpl. unfold bind at 1. unfold set_arg_name at 1. unfold modify.
    destruct (IH (with_heap (alter (λ o, VObj (Argument name) (v_type o)) a (heap s)) s) Hl)
      as (s' & Hrun & Hf & E).
    exists s'. split; [done | split].
    + rewrite Hf. simpl. by rewrite list_lookup_alter_ne.
    + rewrite E. by destruct s.
Qed.

Lemma new_function_spec rt params name s :
  module_globals s !! name = None →
  ∃ args s1,
    new_arguments params s = Ok args s1
    ∧ grows s s1
    ∧ Forall (λ a, a < length (heap s1)) args
    ∧ new_function rt params name s
      = Ok (length (heap s1))
           (with_module_globals (<[name := length (heap s1)]> (module_globals s))
              (allocated (Function name args) (PointerType (FunctionType rt params)) s1)).
Proof.
  intros Hfree. destruct (new_arguments_spec params s) as (args & s1 & Hargs & Hgrow & Hlt).
  exists args, s1. split; [done | split; [done | split; [done |]]].
  unfold new_function. rewrite bind_get, Hfree.
  rewrite (bind_ok _ _ _ _ _ Hargs). unfold bind at 1. rewrite alloc_eq.
  unfold bind, modify, ret. simpl. do 2 f_equal.
  destruct Hgrow as (E & _). rewrite E. reflexivity.
Qed.

(** C8. Declaring a function whose name is free in the module succeeds, and
    the declared function returns void when the declared return type text is
    [void], a 64-bit integer when it is [undefined8], and an integer of eight
    bits per declared byte otherwise; for [undefined8] the mark recorded for
    the RETURN arm makes it return a value. *)
Theorem signature_return_type (s : state) (function : string) (x : function_xml) :
  module_globals s !! function = None →
  ∃ f s',
    create_function_signature function x s = Ok f s'
    ∧ type_of s' f
      = PointerType (FunctionType (spec_return_type (fx_return_type x) (fx_return_size x))
                                  (map snd (signature_args x)))
    ∧ functions_ir s' !! function = Some f
    ∧ (fx_return_type x = "undefined8" →
       (return_signature x).2 = PyStr "undefined8"
       ∧ returns_value (return_signature x).2 = true)
    ∧ (fx_return_type x = "void" → returns_value (return_signature x).2 = false).
Proof.
  intros Hfree. unfold create_function_signature.
  pose proof (return_signature_spec x) as Hspec.
  destruct (return_signature x) as [func_return mark] eqn:Hsig. simpl in Hspec. subst.
  destruct (new_function_spec
              (spec_return_type (fx_return_type x) (fx_return_size x))
              (map snd (signature_args x)) function s Hfree)
    as (args & s1 & Hargs & Hgrow & Hlt & Hnew).
  rewrite (bind_ok _ _ _ _ _ Hnew). rewrite bind_get.
  set (f := length (heap s1)).
  set (s2 := with_module_globals _ _).
  assert (function_args s2 f = args) as Hfa.
  { unfold function_args. subst s2 f. simpl. rewrite lookup_app_r by lia.
    by rewrite Nat.sub_diag. }
  rewrite Hfa.
  destruct (set_arg_names_keep (zip args (map fst (signature_args x))) f s2)
    as (s3 & Hnames & Hf & E).
  { apply Forall_forall. intros [a name] Hin. simpl.
    apply list_elem_of_In, in_combine_l in Hin.
    rewrite Forall_forall in Hlt. apply list_elem_of_In, Hlt in Hin. subst f. lia. }
  exists f, (with_functions_ir (<[function := f]> (functions_ir s3)) s3).
  split; [|split; [|split; [|split]]].
  - unfold bind at 1. rewrite Hnames. reflexivity.
  - unfold type_of. simpl. rewrite Hf. subst s2 f. simpl.
    rewrite lookup_app_r by lia. by rewrite Nat.sub_diag.
  - simpl. apply lookup_insert_eq.
  - intros Htext. unfold return_signature in Hsig. rewrite Htext in Hsig. simpl in Hsig.
    by injection Hsig as <-.
  - intros Htext. unfold return_signature in Hsig. rewrite Htext in Hsig. simpl in Hsig.
    by injection Hsig as <-.
Qed.

Lemma lift_op_return builder blk branched ins out s :
  lift_op builder blk branched (Op "RETURN" ins out) s
  = ((if returns_value (return_type s)
      then i1 <~ item ins 1 ;; lhs <~ fetch_lhs builder i1 ;; ret_ builder lhs
      else ret_void builder) ;;; ret true) s.
Proof.
  unfold returns_value.
  change (lift_op builder blk branched (Op "RETURN" ins out) s)
    with (((if py_eq (return_type s) (PyStr "void") then ret_void builder
            else i1 <~ item ins 1 ;; lhs <~ fetch_lhs builder i1 ;; ret_ builder lhs) ;;;
           ret true) s).
  by destruct (py_eq (return_type s) (PyStr "void")).
Qed.

(** ** Arms that skip the reconciliation *)

Lemma lift_op_int_xor builder blk branched ins out :
  lift_op builder blk branched (Op "INT_XOR" ins out)
  = (i0 <~ item ins 0 ;;
     input0 <~ fetch builder i0 ;;
     i1 <~ item ins 1 ;;
     input1 <~ fetch builder i1 ;;
     result <~ binop "xor" builder input0 input1 ;;
     fetch_store_output builder out result ;;;
     ret branched).
Proof. reflexivity. Qed.

Lemma int_xor_unequal_types_raise builder blk branched i0 i1 out s s1 s2 a b :
  fetch builder i0 s = Ok a s1 →
  fetch builder i1 s1 = Ok b s2 →
  type_of s2 a ≠ type_of s2 b →
  lift_op builder blk branched (Op "INT_XOR" [i0; i1] out) s = Raise ValueError.
Proof.
  intros Ha Hb Hne. rewrite lift_op_int_xor.
  change (item [i0; i1] 0) with (ret (A:=varnode) i0).
  change (item [i0; i1] 1) with (ret (A:=varnode) i1).
  rewrite bind_ret_l, (bind_ok _ _ _ _ _ Ha), bind_ret_l, (bind_ok _ _ _ _ _ Hb).
  unfold bind at 1. unfold binop, bind, get_type.
  by rewrite bool_decide_eq_true_2.
Qed.


(** ** Results that are not stored *)

Lemma lift_op_int_lessequal builder blk branched ins out :
  lift_op builder blk branched (Op "INT_LESSEQUAL" ins out)
  = (i0 <~ item ins 0 ;;
     lhs <~ fetch_lhs builder i0 ;;
     i1 <~ item ins 1 ;;
     rhs <~ fetch_rhs builder i1 ;;
     reconcile lhs rhs ;;;
     icmp "ule" builder lhs rhs ;;;
     ret branched).
Proof. reflexivity. Qed.

(** C2, at the failing input.  The INT_LESSEQUAL arm never looks at the
    output varnode: it emits the [icmp ule] and leaves the temporaries table
    without an entry for the output, where INT_LESS on the same operation
    records its [icmp ult]. *)
Theorem int_lessequal_result_not_stored :
  (∀ builder blk branched ins out out',
     lift_op builder blk branched (Op "INT_LESSEQUAL" ins out)
     = lift_op builder blk branched (Op "INT_LESSEQUAL" ins out'))
  ∧ (λ s, (operands_of "icmp ule" s, temps s !! "unique0x100"))
      <$> state_of (lift_one (one_block "void" 0 (compare_ops "INT_LESSEQUAL")))
    = Some ([[4; 5]], None)
  ∧ (λ s, (operands_of "icmp ult" s, describe s <$> temps s !! "unique0x100"))
      <$> state_of (lift_one (one_block "void" 0 (compare_ops "INT_LESS")))
    = Some ([[4; 5]], Some (Some (Instruction "icmp ult" [4; 5]))).
Proof.
  split; [intros; by rewrite !lift_op_int_lessequal |].
  split; vm_compute; reflexivity.
Qed.

(** ** Conditional branches *)

Lemma py_in_elements x texts : py_in (PyString x) (map PyElement texts) = false.
Proof. induction texts as [|t texts IH]; [done | exact IH]. Qed.

Lemma cbranch_targets_positional true_branch branches s :
  cbranch_targets true_branch branches s
  = (n <~ int_value (Py.int_of 16 true_branch) ;;
     t <~ item branches 0 ;;
     f <~ item branches 1 ;;
     ret (t, f)) s.
Proof.
  unfold cbranch_targets, bind.
  destruct (int_value (Py.int_of 16 true_branch) s) as [n s1|e]; [|done].
  rewrite !py_in_elements. change (negb false || negb false) with true. cbv iota beta.
  destruct (item branches 0 s1) as [t s2|e]; [|done].
  by destruct (item branches 1 s2) as [f s3|e].
Qed.

(** C3, at the failing input.  The out-edges are elements and the labels
    strings, so the membership test never succeeds and the assignment is
    always positional: with out-edges [0x00000014, 0x00000010] and the true
    symbol [0x00000010], the arm takes [0x00000014] as the true label and
    [0x00000010] as the false one, and the emitted conditional branch has the
    operands (condition, block [0x00000010], block [0x00000014]). *)
Theorem cbranch_ignores_the_matching_edge :
  (∀ true_branch branches s,
     cbranch_targets true_branch branches s
     = (n <~ int_value (Py.int_of 16 true_branch) ;;
        t <~ item branches 0 ;;
        f <~ item branches 1 ;;
        ret (t, f)) s)
  ∧ value_of (cbranch_targets "0x00000010" ["0x00000014"; "0x00000010"]
                (initial_state "a.out" "no_option"))
    = Some ("0x00000014", "0x00000010")
  ∧ (λ s, map (map (describe s)) (operands_of "br" s)) <$> state_of (lift_one cbranch_artifact)
    = Some [[Some (Block "0x00001000" [] None)];
            [Some (Constant 1);
             Some (Block "0x00000010" [] None);
             Some (Block "0x00000014" [] None)]].
Proof.
  split; [apply cbranch_targets_positional |].
  split; vm_compute; reflexivity.
Qed.

(** ** Instrumentation intrinsics *)

(** C6, at the failing input.  The cache of [instrument] is keyed by the
    source symbol, so [sym.path_nongoal] after [sym.path_goal] misses it and
    declares [verifier.error] a second time, which the module refuses: the
    lift stops and the second call is never emitted.  Calls to one symbol
    share one declaration and carry no arguments, and [sym.path_start] emits
    nothing. *)
Theorem verifier_error_declared_per_symbol :
  (instrument "sym.path_goal" ;;; instrument "sym.path_nongoal")
    (initial_state "a.out" "no_option")
  = Raise (DuplicatedNameError "verifier.error")
  ∧ lift_one (one_block "void" 0 (instrumented_ops ["sym.path_goal"; "sym.path_nongoal"]))
    = Raise (DuplicatedNameError "verifier.error")
  ∧ (λ s, (declared_functions s, operands_of "call" s))
      <$> state_of (lift_one (one_block "void" 0
                      (instrumented_ops ["sym.path_goal"; "sym.path_goal"; "sym.path_start"])))
    = Some (["f"; "verifier.error"], [[4]; [4]]).
Proof. repeat split; vm_compute; reflexivity. Qed.

(** ** Reads that do not give back the stored object *)


(** ** The theorems at concrete inputs *)

Lemma demo_pointers_ok : pointers_ok demo_state.
Proof. split; apply map_Forall_to_list; vm_compute; repeat constructor. Qed.



Lemma int_add_retypes_narrower_operand_witness :
  let s3 := retyped 8 (IntType 64) demo_state_rhs in
  fetch_lhs 6 (vn "1" 4) demo_state = Ok 8 demo_state_lhs
  ∧ fetch_rhs 6 (vn "2" 8) demo_state_lhs = Ok 9 demo_state_rhs
  ∧ type_of demo_state_rhs 8 = IntType 32
  ∧ type_of demo_state_rhs 9 = IntType 64
  ∧ 32%N ≠ 64%N
  ∧ fixConflictingIntType 8 9 demo_state_rhs = Ok (8, 9) s3
  ∧ type_of s3 8 = IntType 64
  ∧ type_of s3 9 = IntType 64
  ∧ length (heap s3) = length (heap demo_state_rhs)
  ∧ lift_op 6 (XmlBlock "0x1000" [] []) false
      (Op "INT_ADD" [vn "1" 4; vn "2" 8] (Some (vn "unique0x100" 8))) demo_state
    = (result <~ insert_instr 6 "add" [8; 9] (IntType 64) ;;
       fetch_store_output 6 (Some (vn "unique0x100" 8)) result ;;;
       ret false) s3.
Proof.
  intros s3.
  assert (fetch_lhs 6 (vn "1" 4) demo_state = Ok 8 demo_state_lhs) as H1
    by (vm_compute; reflexivity).
  assert (fetch_rhs 6 (vn "2" 8) demo_state_lhs = Ok 9 demo_state_rhs) as H2
    by (vm_compute; reflexivity).
  assert (type_of demo_state_rhs 8 = IntType 32) as H3 by (vm_compute; reflexivity).
  assert (type_of demo_state_rhs 9 = IntType 64) as H4 by (vm_compute; reflexivity).
  assert (32%N ≠ 64%N) as H5 by discriminate.
  pose proof (int_add_retypes_narrower_operand demo_state demo_state_lhs demo_state_rhs 6
                (XmlBlock "0x1000" [] []) false (vn "1" 4) (vn "2" 8)
                (Some (vn "unique0x100" 8)) 8 9 32 64 "INT_ADD" "add" H1 H2 H3 H4 H5)
    as (T1 & T2 & T3 & T4 & _ & _ & T7).
  split; [exact H1 |]. split; [exact H2 |]. split; [exact H3 |]. split; [exact H4 |].
  split; [exact H5 |]. split; [exact T1 |]. split; [exact T2 |]. split; [exact T3 |].
  split; [exact T4 | exact T7].
Defined.


Lemma signature_return_type_witness :
  module_globals (initial_state "a.out" "no_option") !! "f" = None
  ∧ ∃ f s',
      create_function_signature "f" (one_block "undefined8" 8 register_copy_ops)
        (initial_state "a.out" "no_option") = Ok f s'
      ∧ type_of s' f = PointerType (FunctionType (IntType 64) []).
Proof.
  split; [reflexivity |].
  destruct (signature_return_type (initial_state "a.out" "no_option") "f"
              (one_block "undefined8" 8 register_copy_ops) eq_refl)
    as (f & s' & H1 & H2 & _).
  exists f, s'. split; [exact H1 | exact H2].
Defined.

(** * Further properties of the lifter *)

(** ** Labels *)

Lemma length_append (a b : string) :
  String.length (a +:+ b) = String.length a + String.length b.
Proof.
  induction a as [|c a IH]; [done |].
  change (String.length (String c (a +:+ b)) = S (String.length a) + String.length b).
  simpl. by rewrite IH.
Qed.

Lemma length_zeros n : String.length (Py.zeros n) = n.
Proof. induction n as [|n IH]; simpl; [done | by rewrite IH]. Qed.

Lemma zfill_long w s : w ≤ String.length s → Py.zfill w s = s.
Proof. intros H. unfold Py.zfill. by rewrite (proj2 (Nat.leb_le _ _) H). Qed.

Lemma length_zfill w s : w ≤ String.length (Py.zfill w s).
Proof.
  unfold Py.zfill. destruct (w <=? String.length s) eqn:E.
  - by apply Nat.leb_le.
  - apply Nat.leb_gt in E. destruct s as [|c s].
    + rewrite length_zeros. simpl. lia.
    + destruct (Ascii.eqb c "+" || Ascii.eqb c "-").
      * simpl. rewrite length_append, length_zeros. simpl in E. lia.
      * rewrite length_append, length_zeros. simpl in *. lia.
Qed.

(** A label that went through [format_label] is left as it is by a second
    pass, whatever the text was. *)
Theorem format_label_idempotent (label : string) :
  format_label (format_label label) = format_label label.
Proof.
  unfold format_label at 2.
  set (body := if String.eqb (Py.take 2 label) "0x" then Py.drop 2 label else label).
  unfold format_label.
  change (Py.take 2 ("0x" +:+ Py.zfill 8 body)) with "0x".
  change (Py.drop 2 ("0x" +:+ Py.zfill 8 body)) with (Py.zfill 8 body).
  rewrite String.eqb_refl. by rewrite (zfill_long 8 _ (length_zfill 8 body)).
Qed.

(** ** Terminators *)

Lemma set_terminator_eq builder opname operands s :
  set_terminator builder opname operands s
  = if is_terminated s builder then Raise AssertionError
    else Ok (length (heap s)) (terminated_with builder opname operands s).
Proof.
  unfold set_terminator. rewrite bind_get.
  by destruct (is_terminated s builder).
Qed.

(** A BRANCH goes to the block of the first out-edge of its block, whatever
    its own input names: the input must only be there. *)
Theorem branch_follows_first_out_edge
    (s : state) (builder : vid) (addr : string) (l : list op) (out0 : string)
    (outs : list string) (branched : bool) (input : varnode) (rest : list varnode)
    (out : option varnode) :
  lift_op builder (XmlBlock addr l (out0 :: outs)) branched
    (Op "BRANCH" (input :: rest) out) s
  = (block <~ subscript (dict_get (format_label out0) (ir_blocks s)) ;;
     branch builder block ;;;
     ret true) s
  ∧ lift_op builder (XmlBlock addr l []) branched (Op "BRANCH" (input :: rest) out) s
    = Raise IndexError
  ∧ lift_op builder (XmlBlock addr l (out0 :: outs)) branched (Op "BRANCH" [] out) s
    = Raise AttributeError.
Proof.
  split; [|split; reflexivity].
  change (lift_op builder (XmlBlock addr l (out0 :: outs)) branched
            (Op "BRANCH" (input :: rest) out) s)
    with ((let target := format_label (vn_symbol input) in
           let out_target := format_label out0 in
           let target := if negb (String.eqb target out_target) then out_target else target in
           s0 <~ get ;;
           block <~ subscript (dict_get target (ir_blocks s0)) ;;
           branch builder block ;;;
           ret true) s).
  cbv zeta. rewrite bind_get.
  destruct (String.eqb (format_label (vn_symbol input)) (format_label out0)) eqn:E; [|done].
  apply String.eqb_eq in E. by rewrite E.
Qed.


(** In a function that returns nothing, RETURN ignores its inputs: it sets
    a [ret void], and fails the builder's assertion when the block already
    has a terminator. *)
Theorem return_void_ignores_inputs
    (s : state) (builder : vid) (blk : xml_block) (branched : bool)
    (ins : list varnode) (out : option varnode) :
  returns_value (return_type s) = false →
  lift_op builder blk branched (Op "RETURN" ins out) s
  = if is_terminated s builder then Raise AssertionError
    else Ok true (terminated_with builder "ret void" [] s).
Proof.
  intros Hvoid. rewrite lift_op_return, Hvoid. unfold bind, ret_void.
  rewrite set_terminator_eq. by destruct (is_terminated s builder).
Qed.

Lemma return_void_ignores_inputs_witness :
  returns_value (return_type demo_state) = false
  ∧ lift_op 6 (XmlBlock "0x1000" [] []) false (Op "RETURN" [vn "0" 8; vn "7" 8] None)
      demo_state
    = Ok true (terminated_with 6 "ret void" [] demo_state).
Proof.
  split; [reflexivity |].
  exact (return_void_ignores_inputs demo_state 6 (XmlBlock "0x1000" [] []) false
           [vn "0" 8; vn "7" 8] None eq_refl).
Defined.

(** In a function that returns a value, a RETURN with fewer than two inputs
    fails on the missing second input. *)
Theorem return_value_needs_second_input
    (s : state) (builder : vid) (blk : xml_block) (branched : bool)
    (ins : list varnode) (out : option varnode) :
  returns_value (return_type s) = true →
  length ins < 2 →
  lift_op builder blk branched (Op "RETURN" ins out) s = Raise IndexError.
Proof.
  intros Hval Hlen. rewrite lift_op_return, Hval.
  destruct ins as [|i0 [|i1 rest]]; [done | done | simpl in Hlen; lia].
Qed.

Lemma return_value_needs_second_input_witness :
  returns_value (PyStr "undefined8") = true
  ∧ length [vn "0" 8] < 2
  ∧ lift_op 6 (XmlBlock "0x1000" [] []) false (Op "RETURN" [vn "0" 8] None)
      (State (heap demo_state) ∅ ∅ ∅ ∅ ∅ "no_option" "a.out" 1 (PyStr "undefined8")
         ∅ ∅ ∅ [] [] None None)
    = Raise IndexError.
Proof.
  split; [reflexivity | split; [simpl; lia |]].
  apply (return_value_needs_second_input
           (State (heap demo_state) ∅ ∅ ∅ ∅ ∅ "no_option" "a.out" 1 (PyStr "undefined8")
              ∅ ∅ ∅ [] [] None None) 6 (XmlBlock "0x1000" [] []) false [vn "0" 8] None).
  - reflexivity.
  - simpl. lia.
Defined.

(** ** Operation names *)

(** An operation whose name has no arm stops the lift with an exception
    that names it, before anything is resolved or emitted. *)
Theorem unknown_opcode_raises
    (s : state) (builder : vid) (blk : xml_block) (branched : bool) (o : op) :
  elem_str (opname o) known_opcodes = false →
  lift_op builder blk branched o s = Raise (Exception ("Not expected: " +:+ opname o)).
Proof.
  intros H. unfold elem_str, known_opcodes in H. simpl in H.
  repeat (apply orb_false_elim in H as [? H]).
  unfold lift_op.
  repeat match goal with
         | E : String.eqb (opname o) ?n = false |- _ => rewrite E; clear E
         end.
  reflexivity.
Qed.

Lemma unknown_opcode_raises_witness :
  elem_str "FLOAT_ADD" known_opcodes = false
  ∧ lift_op 6 (XmlBlock "0x1000" [] []) false (Op "FLOAT_ADD" [] None) demo_state
    = Raise (Exception "Not expected: FLOAT_ADD").
Proof.
  split; [reflexivity |].
  exact (unknown_opcode_raises demo_state 6 (XmlBlock "0x1000" [] []) false
           (Op "FLOAT_ADD" [] None) eq_refl).
Defined.

(** ** Instrumentation *)

Lemma instrument_declares call_target rt name s :
  intrinsic_of call_target = Some (rt, name) →
  instrumentation s !! call_target = None →
  instrument call_target s
  = (ir_func <~ new_function rt [] name ;;
     modify (λ s, with_instrumentation (<[call_target := ir_func]> (instrumentation s)) s) ;;;
     ret (Some ir_func)) s.
Proof.
  intros Hi Hnone. unfold instrument. rewrite bind_get, Hnone.
  unfold intrinsic_of in Hi.
  destruct (String.eqb call_target "sym.path_start") eqn:Estart.
  { apply String.eqb_eq in Estart. subst. discriminate. }
  destruct (String.eqb call_target "sym.path_goal"); [by injection Hi as <- <- |].
  destruct (String.eqb call_target "sym.path_nongoal"); [by injection Hi as <- <- |].
  destruct (String.eqb call_target "sym.imp.rand"); [by injection Hi as <- <- | done].
Qed.

(** [instrument] memoizes per source symbol.  A symbol in the cache gives the
    cached function and leaves the state as it is.  A symbol not yet in the
    cache whose intrinsic name is free in the module is declared with no
    parameters and its return type, is entered in the cache, and a second
    call returns the same function without declaring anything. *)
Theorem instrument_memoizes (s : state) (call_target : string) :
  (∀ f, instrumentation s !! call_target = Some f →
        instrument call_target s = Ok (Some f) s)
  ∧ (∀ rt name,
       intrinsic_of call_target = Some (rt, name) →
       instrumentation s !! call_target = None →
       module_globals s !! name = None →
       ∃ f s',
         instrument call_target s = Ok (Some f) s'
         ∧ type_of s' f = PointerType (FunctionType rt [])
         ∧ module_globals s' !! name = Some f
         ∧ instrumentation s' !! call_target = Some f
         ∧ instrument call_target s' = Ok (Some f) s').
Proof.
  split.
  - intros f Hf. unfold instrument. by rewrite bind_get, Hf.
  - intros rt name Hi Hnone Hfree.
    rewrite (instrument_declares call_target rt name s Hi Hnone).
    destruct (new_function_spec rt [] name s Hfree) as (args & s1 & Hargs & _ & _ & Hnew).
    injection Hargs as <- <-.
    rewrite (bind_ok _ _ _ _ _ Hnew).
    eexists _, _. split; [reflexivity |].
    split; [| split; [| split]].
    + unfold type_of. simpl. rewrite lookup_app_r by lia. by rewrite Nat.sub_diag.
    + simpl. apply lookup_insert_eq.
    + simpl. apply lookup_insert_eq.
    + unfold instrument, bind, get. simpl. by rewrite lookup_insert_eq.
Qed.

Lemma instrument_memoizes_witness :
  intrinsic_of "sym.imp.rand" = Some (int32, "nd")
  ∧ instrumentation demo_state !! "sym.imp.rand" = None
  ∧ module_globals demo_state !! "nd" = None
  ∧ ∃ f s',
      instrument "sym.imp.rand" demo_state = Ok (Some f) s'
      ∧ type_of s' f = PointerType (FunctionType int32 [])
      ∧ instrument "sym.imp.rand" s' = Ok (Some f) s'.
Proof.
  split; [reflexivity | split; [reflexivity | split; [reflexivity |]]].
  destruct (proj2 (instrument_memoizes demo_state "sym.imp.rand") int32 "nd"
              eq_refl eq_refl eq_refl) as (f & s' & H1 & H2 & _ & _ & H5).
  exists f, s'. split; [exact H1 | split; [exact H2 | exact H5]].
Defined.

(** The exception [instrument] keeps for an unknown symbol cannot come out
    of the CALL arm, which asks it only about the symbols of the
    instrumentation list. *)
Theorem instrument_exception_unreachable (s : state) (call_target : string) :
  elem_str call_target instrumentation_list = true →
  instrument call_target s ≠ Raise (Exception "Not excepted instrumentation function").
Proof.
  intros H. unfold elem_str, instrumentation_list in H. simpl in H.
  unfold instrument. rewrite bind_get.
  destruct (instrumentation s !! call_target) as [f|]; [done |].
  destruct (String.eqb call_target "sym.path_start") eqn:E1; [done |].
  destruct (String.eqb call_target "sym.path_goal") eqn:E2.
  { unfold new_function, bind, get.
    destruct (module_globals s !! "verifier.error"); done. }
  destruct (String.eqb call_target "sym.path_nongoal") eqn:E3.
  { unfold new_function, bind, get.
    destruct (module_globals s !! "verifier.error"); done. }
  destruct (String.eqb call_target "sym.imp.rand") eqn:E4.
  { unfold new_function, bind, get.
    destruct (module_globals s !! "nd"); done. }
  done.
Qed.

Lemma instrument_exception_unreachable_witness :
  elem_str "sym.path_goal" instrumentation_list = true
  ∧ instrument "sym.path_goal" demo_state
    ≠ Raise (Exception "Not excepted instrumentation function").
Proof.
  split; [reflexivity |].
  exact (instrument_exception_unreachable demo_state "sym.path_goal" eq_refl).
Defined.

(** ** The resolver *)

(** On a state whose handles are pointers, [fetch_input] raises exactly on
    the symbols that contain [argv] or [argc] once resolved, and then with
    its own exception. *)
Theorem fetch_input_raises_iff (s : state) (builder : vid) (arg : varnode) :
  pointers_ok s →
  ((∃ e, fetch_input builder arg s = Raise e) ↔ fatal_resolved arg = true)
  ∧ (fatal_resolved arg = true →
     fetch_input builder arg s = Raise (Exception "argc and argv weird behaviour")).
Proof.
  intros Hok.
  assert (fatal_resolved arg = true →
          fetch_input builder arg s = Raise (Exception "argc and argv weird behaviour")) as Hr.
  { unfold fatal_resolved, fetch_input. intros H.
    destruct (Py.contains "argv" (resolved_symbol arg)); [done |].
    simpl in H. by rewrite H. }
  split; [|exact Hr]. split.
  - intros [e He]. destruct (fatal_resolved arg) eqn:E; [done |].
    apply orb_false_elim in E as [Hv Hc].
    destruct (fetch_input_returns s builder arg Hok Hv Hc) as (v & s' & H & _). congruence.
  - intros H. eexists. by apply Hr.
Qed.

Lemma fetch_input_raises_iff_witness :
  pointers_ok demo_state
  ∧ fatal_resolved (vn "argv" 8) = true
  ∧ fetch_input 6 (vn "argv" 8) demo_state
    = Raise (Exception "argc and argv weird behaviour").
Proof.
  assert (pointers_ok demo_state) as H
    by (split; apply map_Forall_to_list; vm_compute; repeat constructor).
  split; [exact H | split; [reflexivity |]].
  exact (proj2 (fetch_input_raises_iff demo_state 6 (vn "argv" 8) H) eq_refl).
Defined.

Lemma fetch_returns (s : state) (builder : vid) (arg : varnode) :
  pointers_ok s → fatal_symbol arg = false →
  ∃ v s', fetch builder arg s = Ok v s' ∧ grows s s'.
Proof.
  intros Hok Hfatal. destruct (not_fatal_resolved arg Hfatal) as [Hv Hc].
  destruct (fetch_input_returns s builder arg Hok Hv Hc) as (v & s' & H & Hg).
  exists v, s'. split; [|done]. unfold fetch. by rewrite (bind_ok _ _ _ _ _ H).
Qed.

Lemma lift_op_subpiece builder blk branched ins out :
  lift_op builder blk branched (Op "SUBPIECE" ins out)
  = (i0 <~ item ins 0 ;;
     argument <~ fetch builder i0 ;;
     i1 <~ item ins 1 ;;
     fetch builder i1 ;;;
     result <~ (if String.eqb (vn_symbol i1) "0"
                then castop "trunc" builder argument (IntType (vn_size i1 * 8))
                else raise (Exception "Unexpected subpiece operation")) ;;
     fetch_store_output builder out result ;;;
     ret branched).
Proof. reflexivity. Qed.

(** A SUBPIECE whose second input is not the symbol [0] stops the lift with
    its own exception, after both inputs were resolved. *)
Theorem subpiece_offset_must_be_zero
    (s : state) (builder : vid) (blk : xml_block) (branched : bool)
    (i0 i1 : varnode) (rest : list varnode) (out : option varnode) :
  pointers_ok s →
  fatal_symbol i0 = false →
  fatal_symbol i1 = false →
  vn_symbol i1 ≠ "0" →
  lift_op builder blk branched (Op "SUBPIECE" (i0 :: i1 :: rest) out) s
  = Raise (Exception "Unexpected subpiece operation").
Proof.
  intros Hok H0 H1 Hne. rewrite lift_op_subpiece.
  change (item (i0 :: i1 :: rest) 0) with (ret (A:=varnode) i0).
  change (item (i0 :: i1 :: rest) 1) with (ret (A:=varnode) i1).
  destruct (fetch_returns s builder i0 Hok H0) as (a & s1 & Ha & Hg1).
  destruct (fetch_returns s1 builder i1 (grows_pointers_ok _ _ Hg1 Hok) H1)
    as (b & s2 & Hb & _).
  rewrite bind_ret_l, (bind_ok _ _ _ _ _ Ha), bind_ret_l, (bind_ok _ _ _ _ _ Hb).
  apply String.eqb_neq in Hne. by rewrite Hne.
Qed.

Lemma subpiece_offset_must_be_zero_witness :
  pointers_ok demo_state
  ∧ fatal_symbol (vn "7" 8) = false
  ∧ fatal_symbol (vn "4" 4) = false
  ∧ "4" ≠ "0"
  ∧ lift_op 6 (XmlBlock "0x1000" [] []) false
      (Op "SUBPIECE" [vn "7" 8; vn "4" 4] (Some (vn "unique0x10" 4))) demo_state
    = Raise (Exception "Unexpected subpiece operation").
Proof.
  assert (pointers_ok demo_state) as H
    by (split; apply map_Forall_to_list; vm_compute; repeat constructor).
  assert ("4" ≠ "0") as Hne by discriminate.
  split; [exact H | split; [reflexivity | split; [reflexivity | split; [exact Hne |]]]].
  exact (subpiece_offset_must_be_zero demo_state 6 (XmlBlock "0x1000" [] []) false
           (vn "7" 8) (vn "4" 4) [] (Some (vn "unique0x10" 4)) H eq_refl eq_refl Hne).
Defined.

(** A store to a global goes straight to the builder: it is emitted when
    the global holds the type of the result and fails with a type error
    otherwise, no cast being tried on this path. *)
Theorem store_to_global_needs_equal_type
    (s : state) (builder : vid) (out : varnode) (result g : vid) (t : ty) :
  locals s !! resolved_symbol out = None →
  global_vars s !! resolved_symbol out = Some g →
  type_of s g = PointerType t →
  fetch_store_output builder (Some out) result s
  = if bool_decide (t = type_of s result)
    then Ok (Some (length (heap s))) (inserted builder "store" [result; g] VoidType s)
    else Raise TypeError.
Proof.
  intros Hl Hg Ht. unfold fetch_store_output, deref. rewrite bind_ret_l, bind_get, Hl, Hg.
  unfold bind at 1. unfold store, bind, get_type. rewrite Ht.
  destruct (decide (t = type_of s result)) as [E|E].
  - rewrite (bool_decide_eq_true_2 _ E).
    by rewrite bool_decide_eq_false_2 by (intros H; by apply H).
  - rewrite (bool_decide_eq_false_2 _ E). by rewrite bool_decide_eq_true_2.
Qed.

Lemma store_to_global_needs_equal_type_witness :
  locals global_state !! "obj.counter" = None
  ∧ global_vars global_state !! "obj.counter" = Some 0
  ∧ type_of global_state 0 = PointerType (IntType 32)
  ∧ fetch_store_output 3 (Some (vn "obj.counter" 4)) 5 global_state = Raise TypeError.
Proof.
  split; [reflexivity | split; [reflexivity | split; [reflexivity |]]].
  exact (store_to_global_needs_equal_type global_state 3 (vn "obj.counter" 4) 5 0
           (IntType 32) eq_refl eq_refl eq_refl).
Defined.

Lemma castop_eq opname builder value typ s :
  castop opname builder value typ s
  = if bool_decide (type_of s value = typ) then Ok value s
    else Ok (length (heap s)) (inserted builder opname [value] typ s).
Proof. unfold castop, bind, get_type. by destruct (bool_decide (type_of s value = typ)). Qed.

Lemma store_pointer builder value ptr s :
  type_of s ptr = PointerType (type_of s value) →
  store builder value ptr s
  = Ok (length (heap s)) (inserted builder "store" [value; ptr] VoidType s).
Proof.
  intros H. unfold store, bind, get_type. rewrite H.
  by rewrite bool_decide_eq_false_2 by (intros E; by apply E).
Qed.

Lemma desc_inserted_new b opname operands t s :
  v_desc <$> heap (inserted b opname operands t s) !! length (heap s)
  = Some (Instruction opname operands).
Proof.
  unfold inserted. simpl. destruct (decide (b = length (heap s))) as [->|Hne].
  - rewrite list_lookup_alter_eq, lookup_app_r by lia. by rewrite Nat.sub_diag.
  - rewrite list_lookup_alter_ne by done. rewrite lookup_app_r by lia.
    by rewrite Nat.sub_diag.
Qed.

(** A store of a value that is not of void type to a local never fails: the
    slot, or the element the offset attributes select in it, is cast to a
    pointer to the type of the value when it is not one already, and the
    [store] through that pointer is emitted. *)
Theorem store_to_local_is_cast_to_fit
    (s : state) (builder : vid) (out : varnode) (result p : vid) :
  pointers_ok s →
  result < length (heap s) →
  locals s !! resolved_symbol out = Some p →
  type_of s result ≠ VoidType →
  ∃ i q s',
    fetch_store_output builder (Some out) result s = Ok (Some i) s'
    ∧ grows s s'
    ∧ v_desc <$> heap s' !! i = Some (Instruction "store" [result; q])
    ∧ type_of s' q = PointerType (type_of s result).
Proof.
  intros [_ Hl] Hres Hp Hvoid.
  pose proof (is_pointer_lt _ _ (Hl _ _ Hp)) as Hplt.
  destruct (is_pointer_type _ (Hl _ _ Hp)) as [t Ht].
  unfold fetch_store_output, deref. rewrite bind_ret_l, bind_get, Hp.
  assert (∀ s1 q,
            grows s s1 → type_of s1 q = PointerType t → q < length (heap s1) →
            ∃ i q' s',
              (tr <~ get_type result ;;
               if bool_decide (tr ≠ void_type) then
                 to <~ get_type q ;;
                 output <~ (if bool_decide (to ≠ PointerType tr)
                            then castop "bitcast" builder q (PointerType tr)
                            else ret q) ;;
                 i <~ store builder result output ;;
                 ret (Some i)
               else ret None) s1 = Ok (Some i) s'
              ∧ grows s s'
              ∧ v_desc <$> heap s' !! i = Some (Instruction "store" [result; q'])
              ∧ type_of s' q' = PointerType (type_of s result)) as Hstore.
  { intros s1 q Hg Hq Hqlt.
    assert (type_of s1 result = type_of s result) as Hr
      by (destruct Hg as (_ & _ & T & _); by apply T).
    assert (result < length (heap s1)) as Hres1 by (destruct Hg as (_ & L & _); lia).
    unfold bind at 1. unfold get_type at 1. rewrite Hr.
    rewrite bool_decide_eq_true_2 by done.
    unfold bind at 1. unfold get_type at 1. rewrite Hq.
    destruct (decide (PointerType t = PointerType (type_of s result))) as [E|E].
    - rewrite bool_decide_eq_false_2 by (intros H; by apply H).
      rewrite bind_ret_l. unfold bind.
      rewrite (store_pointer builder result q s1) by (by rewrite Hq, Hr).
      eexists _, q, _. split; [reflexivity |].
      split; [eapply grows_trans; [exact Hg | apply grows_inserted] |].
      split; [apply desc_inserted_new |].
      rewrite type_of_inserted_old by done. by rewrite Hq, <- E.
    - rewrite bool_decide_eq_true_2 by done.
      unfold bind at 1. rewrite castop_eq, Hq.
      rewrite bool_decide_eq_false_2 by done.
      set (s2 := inserted builder "bitcast" [q] (PointerType (type_of s result)) s1).
      assert (type_of s2 (length (heap s1)) = PointerType (type_of s result)) as Hcast
        by apply type_of_inserted_new.
      assert (type_of s2 result = type_of s result) as Hr2
        by (subst s2; by rewrite type_of_inserted_old).
      unfold bind.
      rewrite (store_pointer builder result (length (heap s1)) s2)
        by (by rewrite Hcast, Hr2).
      eexists _, (length (heap s1)), _. split; [reflexivity |].
      split; [eapply grows_trans; [exact Hg |];
              eapply grows_trans; apply grows_inserted |].
      split; [apply desc_inserted_new |].
      rewrite type_of_inserted_old; [exact Hcast |].
      subst s2. rewrite length_inserted. lia. }
  destruct (offset_attributes out) as [[offset n]|].
  - unfold bind at 1. unfold bind at 1. unfold constant. rewrite alloc_eq.
    rewrite (gep_pointer builder p (length (heap s)) t).
    2:{ by rewrite type_of_allocated_old. }
    2:{ by rewrite type_of_allocated_new. }
    apply Hstore.
    + eapply grows_trans; [apply grows_allocated | apply grows_inserted].
    + apply type_of_inserted_new.
    + rewrite length_inserted. lia.
  - rewrite bind_ret_l. apply Hstore; [apply grows_refl | done | done].
Qed.

Lemma store_to_local_is_cast_to_fit_witness :
  pointers_ok demo_state
  ∧ 0 < length (heap demo_state)
  ∧ locals demo_state !! "var_10h" = Some 4
  ∧ type_of demo_state 0 ≠ VoidType
  ∧ ∃ i q s',
      fetch_store_output 6 (Some (Varnode "var_10h.2" 4 (Some 2%Z) (Some 2%N))) 0 demo_state
      = Ok (Some i) s'
      ∧ type_of s' q = PointerType (IntType 32).
Proof.
  assert (pointers_ok demo_state) as H
    by (split; apply map_Forall_to_list; vm_compute; repeat constructor).
  assert (0 < length (heap demo_state)) as Hlt by (vm_compute; lia).
  assert (type_of demo_state 0 ≠ VoidType) as Hv by discriminate.
  split; [exact H | split; [exact Hlt | split; [reflexivity | split; [exact Hv |]]]].
  destruct (store_to_local_is_cast_to_fit demo_state 6
              (Varnode "var_10h.2" 4 (Some 2%Z) (Some 2%N)) 0 4 H Hlt eq_refl Hv)
    as (i & q & s' & H1 & _ & _ & H4).
  exists i, q, s'. split; [exact H1 | exact H4].
Defined.

(** ** Calls *)

(** A CALL of a function declared without parameters is emitted without
    arguments, whatever inputs follow the callee: they are resolved all the
    same, and dropped. *)
Theorem call_without_parameters_drops_arguments
    (s : state) (builder : vid) (blk : xml_block) (branched : bool)
    (i0 : varnode) (rest : list varnode) (out : option varnode) (f : vid) :
  pointers_ok s →
  forallb (λ a, negb (fatal_symbol a)) rest = true →
  elem_str (vn_symbol i0) instrumentation_list = false →
  functions_ir s !! vn_symbol i0 = Some f →
  f < length (heap s) →
  function_args s f = [] →
  ∃ args s',
    call_arguments builder rest [] s = Ok args s'
    ∧ length args = length rest
    ∧ lift_op builder blk branched (Op "CALL" (i0 :: rest) out) s
      = (r <~ call builder f [] ;;
         match out with
         | Some _ => fetch_store_output builder out r ;;; ret branched
         | None => ret branched
         end) s'.
Proof.
  intros Hok Hrest Hinstr Hf Hlt Hargs.
  destruct (call_arguments_keeps_all builder rest s [] Hok Hrest)
    as (args & s' & Hcall & Hlen & (E & L & T & F)).
  exists args, s'. split; [done | split; [done |]].
  rewrite lift_op_call.
  change (item (i0 :: rest) 0) with (ret (A:=varnode) i0).
  change (tail (i0 :: rest)) with rest.
  rewrite bind_ret_l. cbv zeta.
  rewrite (bind_ok _ _ _ _ _ Hcall). rewrite Hinstr.
  assert (functions_ir s' !! vn_symbol i0 = Some f) as Hf' by (rewrite E; exact Hf).
  unfold bind at 1. rewrite bind_get, Hf'. unfold subscript. rewrite bind_ret_l, bind_get.
  rewrite (F f Hlt), Hargs.
  unfold bind. destruct (call builder f [] s') as [r s2|e]; [|done].
  by destruct out.
Qed.

Lemma call_without_parameters_drops_arguments_witness :
  pointers_ok demo_state
  ∧ functions_ir demo_state !! "f" = Some 2
  ∧ function_args demo_state 2 = []
  ∧ ∃ args s',
      call_arguments 6 [vn "7" 4; vn "8" 4] [] demo_state = Ok args s'
      ∧ length args = 2
      ∧ lift_op 6 (XmlBlock "0x1000" [] []) false
          (Op "CALL" [vn "f" 8; vn "7" 4; vn "8" 4] None) demo_state
        = (r <~ call 6 2 [] ;; ret false) s'.
Proof.
  assert (pointers_ok demo_state) as H
    by (split; apply map_Forall_to_list; vm_compute; repeat constructor).
  assert (2 < length (heap demo_state)) as Hlt by (vm_compute; lia).
  split; [exact H | split; [reflexivity | split; [reflexivity |]]].
  exact (call_without_parameters_drops_arguments demo_state 6 (XmlBlock "0x1000" [] [])
           false (vn "f" 8) [vn "7" 4; vn "8" 4] None 2 H eq_refl eq_refl eq_refl Hlt
           eq_refl).
Defined.

(** ** Temporaries *)

Lemma fetch_input_held (s : state) (builder : vid) (arg : varnode) (v : vid) :
  held_temporary s (vn_symbol arg) v →
  fetch_input builder arg s
  = (t <~ get_type v ;;
     if bool_decide (t = void_type) then
       c <~ constant (IntType 1) 0 ;; ret (Some c)
     else if bool_decide (t ≠ IntType (requested_width arg)) && bool_decide (t ≠ int1) then
       r <~ insert_instr builder "trunc" [v] (IntType (requested_width arg)) ;;
       ret (Some r)
     else ret (Some v)) s.
Proof.
  intros (Hvar & Harg & Hg & Hl & Ht).
  assert (resolved_symbol arg = vn_symbol arg) as Hsym
    by (unfold resolved_symbol; by rewrite Hvar).
  unfold fetch_input. rewrite Hsym.
  pose proof (not_contains_append "arg" "v" _ Harg) as Hv.
  pose proof (not_contains_append "arg" "c" _ Harg) as Hc.
  change ("arg" +:+ "v") with "argv" in Hv. change ("arg" +:+ "c") with "argc" in Hc.
  rewrite Hv, Hc, Harg, bind_get. by rewrite Hg, Hl, Ht.
Qed.

(** Reading a temporary whose integer type is neither the requested one nor
    [i1] always emits a [trunc] to the requested width, be the request
    narrower or wider than what is held. *)
Theorem temporary_of_other_width_is_truncated
    (s : state) (builder : vid) (arg : varnode) (v : vid) (w : N) :
  held_temporary s (vn_symbol arg) v →
  type_of s v = IntType w →
  w ≠ requested_width arg →
  w ≠ 1%N →
  fetch_input builder arg s
  = Ok (Some (length (heap s)))
       (inserted builder "trunc" [v] (IntType (requested_width arg)) s).
Proof.
  intros Hheld Hw Hne Hone. rewrite (fetch_input_held s builder arg v Hheld).
  unfold bind, get_type. rewrite Hw.
  rewrite bool_decide_eq_false_2 by done.
  rewrite (bool_decide_eq_true_2 (IntType w ≠ IntType (requested_width arg)))
    by congruence.
  by rewrite (bool_decide_eq_true_2 (IntType w ≠ int1)) by (intros [= ->]; done).
Qed.

(** A COPY from one temporary to another makes the second name hold the
    very object of the first, when that object has the requested integer
    type or is an [i1]: nothing is emitted, and the two names are aliases. *)
Theorem copy_between_temporaries_aliases
    (s : state) (builder : vid) (blk : xml_block) (branched : bool)
    (src dst : varnode) (rest : list varnode) (v : vid) (w : N) :
  held_temporary s (vn_symbol src) v →
  temporary_name s (vn_symbol dst) →
  type_of s v = IntType w →
  w = requested_width src ∨ w = 1%N →
  lift_op builder blk branched (Op "COPY" (src :: rest) (Some dst)) s
  = Ok branched (with_temps (<[vn_symbol dst := v]> (temps s)) s).
Proof.
  intros Hheld (Hname & Hvar & Harg & Hloc & Hglob) Hw Hcase.
  change (lift_op builder blk branched (Op "COPY" (src :: rest) (Some dst)) s)
    with ((result <~ fetch builder src ;;
           fetch_store_output builder (Some dst) result ;;;
           ret branched) s).
  assert (fetch builder src s = Ok v s) as Hfetch.
  { unfold fetch. rewrite (bind_ok _ _ s (Some v) s); [done |].
    rewrite (fetch_input_held s builder src v Hheld). unfold bind, get_type. rewrite Hw.
    rewrite bool_decide_eq_false_2 by done.
    destruct Hcase as [-> | ->].
    - by rewrite (bool_decide_eq_false_2 (IntType (requested_width src)
                                          ≠ IntType (requested_width src)))
        by (intros H; by apply H).
    - rewrite (bool_decide_eq_false_2 (IntType 1 ≠ int1)) by (intros H; by apply H).
      by rewrite andb_false_r. }
  rewrite (bind_ok _ _ _ _ _ Hfetch).
  assert (resolved_symbol dst = vn_symbol dst) as Hsym
    by (unfold resolved_symbol; by rewrite Hvar).
  unfold bind at 1. unfold fetch_store_output, deref.
  rewrite bind_ret_l, bind_get, Hsym, Hloc, Hglob.
  destruct (Py.contains "register" (vn_symbol dst)); [done |].
  simpl in Hname. by rewrite Hname.
Qed.

Lemma temporary_of_other_width_is_truncated_witness :
  held_temporary temp_state "unique0x10" 8
  ∧ type_of temp_state 8 = IntType 32
  ∧ 32%N ≠ requested_width (vn "unique0x10" 8)
  ∧ 32%N ≠ 1%N
  ∧ fetch_input 6 (vn "unique0x10" 8) temp_state
    = Ok (Some 9) (inserted 6 "trunc" [8] (IntType 64) temp_state).
Proof.
  assert (held_temporary temp_state "unique0x10" 8) as H
    by (repeat split; vm_compute; reflexivity).
  assert (32%N ≠ requested_width (vn "unique0x10" 8)) as H1 by (vm_compute; discriminate).
  assert (32%N ≠ 1%N) as H2 by discriminate.
  split; [exact H | split; [reflexivity | split; [exact H1 | split; [exact H2 |]]]].
  exact (temporary_of_other_width_is_truncated temp_state 6 (vn "unique0x10" 8) 8 32
           H eq_refl H1 H2).
Defined.

Lemma copy_between_temporaries_aliases_witness :
  held_temporary temp_state "unique0x10" 8
  ∧ temporary_name temp_state "unique0x20"
  ∧ type_of temp_state 8 = IntType 32
  ∧ lift_op 6 (XmlBlock "0x1000" [] []) false
      (Op "COPY" [vn "unique0x10" 4] (Some (vn "unique0x20" 4))) temp_state
    = Ok false (with_temps (<["unique0x20" := 8]> (temps temp_state)) temp_state).
Proof.
  assert (held_temporary temp_state "unique0x10" 8) as H
    by (repeat split; vm_compute; reflexivity).
  assert (temporary_name temp_state "unique0x20") as H1
    by (repeat split; vm_compute; reflexivity).
  split; [exact H | split; [exact H1 | split; [reflexivity |]]].
  exact (copy_between_temporaries_aliases temp_state 6 (XmlBlock "0x1000" [] []) false
           (vn "unique0x10" 4) (vn "unique0x20" 4) [] 8 32 H H1 eq_refl
           (or_introl eq_refl)).
Defined.

(** ** What lifting keeps *)

Lemma keeps_refl o : keeps o o.
Proof. split; [done |]. by destruct (v_desc o). Qed.

Lemma keeps_trans o1 o2 o3 : keeps o1 o2 → keeps o2 o3 → keeps o1 o3.
Proof.
  intros [T1 B1] [T2 B2]. split.
  - intros Hp. rewrite T2; [by apply T1 |]. by rewrite T1.
  - destruct (v_desc o1); try done.
    destruct (v_desc o2); try done.
    destruct (v_desc o3); try done. auto.
Qed.

Lemma stable_refl s : stable s s.
Proof.
  repeat (split; [done |]). intros v o H. exists o. split; [done | apply keeps_refl].
Qed.

Lemma stable_trans s1 s2 s3 : stable s1 s2 → stable s2 s3 → stable s1 s3.
Proof.
  intros (L1 & G1 & B1 & X1 & H1) (L2 & G2 & B2 & X2 & H2).
  repeat (split; [congruence |]).
  intros v o Ho. destruct (H1 v o Ho) as (o2 & Ho2 & K1).
  destruct (H2 v o2 Ho2) as (o3 & Ho3 & K2).
  exists o3. split; [done | by eapply keeps_trans].
Qed.

Lemma stable_pointers_ok s s' : stable s s' → pointers_ok s → pointers_ok s'.
Proof.
  intros (L & G & _ & _ & H) [Hg Hl].
  assert (∀ p, is_pointer (type_of s p) = true → is_pointer (type_of s' p) = true) as Hp.
  { intros p Hp. unfold type_of in *. destruct (heap s !! p) as [o|] eqn:E; [|done].
    destruct (H p o E) as (o' & -> & [T _]). simpl in *. by rewrite T. }
  split.
  - rewrite G. intros name p Hn. apply Hp. by apply (Hg name).
  - rewrite L. intros name p Hn. apply Hp. by apply (Hl name).
Qed.

Lemma stable_is_block s s' v : stable s s' → is_block s v = true → is_block s' v = true.
Proof.
  intros (_ & _ & _ & _ & H). unfold is_block. destruct (heap s !! v) as [o|] eqn:E; [|done].
  destruct (H v o E) as (o' & -> & [_ B]). simpl.
  destruct (v_desc o); try done. by destruct (v_desc o').
Qed.

Lemma stable_is_terminated s s' v :
  stable s s' → is_terminated s v = true → is_terminated s' v = true.
Proof.
  intros (_ & _ & _ & _ & H). unfold is_terminated. destruct (heap s !! v) as [o|] eqn:E; [|done].
  destruct (H v o E) as (o' & -> & [_ B]). simpl.
  destruct (v_desc o) as [| | | |n l [t|]|]; try done.
  destruct (v_desc o') as [| | | |n' l' [t'|]|]; try done.
  intros _. by destruct B.
Qed.

Lemma keeps_block_append i term o : keeps o (block_append i term o).
Proof.
  split; [intros _; apply block_append_type |].
  unfold block_append. destruct (v_desc o) as [| | | |n l t|] eqn:E; simpl; rewrite ?E; try done.
  intros Ht. destruct term; [eauto | done].
Qed.

(** A heap that grew at its end, with some of its objects changed into
    what they keep. *)
Lemma stable_with_heap s (h : list vobj) :
  (∀ v o, heap s !! v = Some o → ∃ o', h !! v = Some o' ∧ keeps o o') →
  stable s (with_heap h s).
Proof. intros H. by repeat (split; [done |]). Qed.

Lemma stable_allocated d t s : stable s (allocated d t s).
Proof.
  apply stable_with_heap. intros v o Ho. exists o. split; [|apply keeps_refl].
  rewrite lookup_app_l; [done |]. by eapply lookup_lt_Some.
Qed.

Lemma stable_appended_block i term b o' s :
  stable s (with_heap (alter (block_append i term) b (heap s ++ [o'])) s).
Proof.
  apply stable_with_heap. intros v o Ho.
  assert ((heap s ++ [o']) !! v = Some o) as Ho'
    by (rewrite lookup_app_l; [done | by eapply lookup_lt_Some]).
  destruct (decide (b = v)) as [->|Hne].
  - exists (block_append i term o). split; [|apply keeps_block_append].
    by rewrite list_lookup_alter_eq, Ho'.
  - exists o. split; [|apply keeps_refl]. by rewrite list_lookup_alter_ne.
Qed.

Lemma stable_inserted b opname operands t s : stable s (inserted b opname operands t s).
Proof. apply stable_appended_block. Qed.

Lemma stable_terminated_with b opname operands s :
  stable s (terminated_with b opname operands s).
Proof. apply stable_appended_block. Qed.

Lemma stable_retyped v t s :
  is_pointer (type_of s v) = false → stable s (retyped v t s).
Proof.
  intros Hv. apply stable_with_heap. intros u o Ho.
  destruct (decide (v = u)) as [->|Hne].
  - exists (VObj (v_desc o) t). split; [by rewrite list_lookup_alter_eq, Ho |].
    split; [|simpl; by destruct (v_desc o)].
    unfold type_of in Hv. rewrite Ho in Hv. simpl in Hv. by rewrite Hv.
  - exists o. split; [by rewrite list_lookup_alter_ne | apply keeps_refl].
Qed.

Lemma is_terminated_terminated_with b opname operands s :
  is_block s b = true → is_terminated (terminated_with b opname operands s) b = true.
Proof.
  unfold is_block, is_terminated, terminated_with. simpl. intros Hb.
  destruct (heap s !! b) as [o|] eqn:E; [|done].
  rewrite list_lookup_alter_eq, lookup_app_l by (by eapply lookup_lt_Some).
  rewrite E. simpl in *. unfold block_append. by destruct (v_desc o).
Qed.

(** *** Rules *)

Lemma steps_ret {A} (a : A) : steps (ret a).
Proof. intros s a' s' [= _ <-]. apply stable_refl. Qed.

Lemma steps_raise {A} e : steps (raise (A:=A) e).
Proof. intros s a s' H. discriminate. Qed.

Lemma steps_get : steps get.
Proof. intros s a s' [= _ <-]. apply stable_refl. Qed.

Lemma steps_bind {A B} (c : M A) (k : A → M B) :
  steps c → (∀ a, steps (k a)) → steps (bind c k).
Proof.
  intros Hc Hk s b s' H. unfold bind in H.
  destruct (c s) as [a s1|e] eqn:E; [|done].
  eapply stable_trans; [by eapply Hc | by eapply Hk].
Qed.

Lemma steps_try_except {A} (c h : M A) : steps c → steps h → steps (try_except c h).
Proof.
  intros Hc Hh s a s' H. unfold try_except in H.
  destruct (c s) as [a1 s1|e] eqn:E.
  - injection H as <- <-. by eapply Hc.
  - by eapply Hh.
Qed.

Lemma steps_modify (f : state → state) :
  (∀ s, heap (f s) = heap s ∧ locals (f s) = locals s ∧ global_vars (f s) = global_vars s
        ∧ ir_blocks (f s) = ir_blocks s ∧ xml_blocks (f s) = xml_blocks s) →
  steps (modify f).
Proof.
  intros Hf s a s' [= _ <-]. destruct (Hf s) as (Hh & Hl & Hg & Hb & Hx).
  repeat (split; [done |]). rewrite Hh. intros v o Ho. exists o.
  split; [done | apply keeps_refl].
Qed.

Lemma steps_subscript {A} (o : option A) : steps (subscript o).
Proof. destruct o; [apply steps_ret | apply steps_raise]. Qed.

Lemma steps_item {A} (l : list A) i : steps (item l i).
Proof. unfold item. destruct (l !! i); [apply steps_ret | apply steps_raise]. Qed.

Lemma steps_deref {A} (o : option A) : steps (deref o).
Proof. destruct o; [apply steps_ret | apply steps_raise]. Qed.

Lemma steps_int_value o : steps (int_value o).
Proof. destruct o; [apply steps_ret | apply steps_raise]. Qed.

Lemma steps_local_var o : steps (local_var o).
Proof. destruct o; [apply steps_ret | apply steps_raise]. Qed.

Lemma steps_get_type v : steps (get_type v).
Proof. intros s a s' [= _ <-]. apply stable_refl. Qed.

Lemma steps_alloc d t : steps (alloc d t).
Proof. intros s a s' H. rewrite alloc_eq in H. injection H as _ <-. apply stable_allocated. Qed.

Lemma steps_insert_instr b opname operands t : steps (insert_instr b opname operands t).
Proof.
  intros s a s' H. rewrite insert_instr_eq in H. injection H as _ <-.
  apply stable_inserted.
Qed.

Lemma steps_set_terminator b opname operands : steps (set_terminator b opname operands).
Proof.
  intros s a s' H. rewrite set_terminator_eq in H.
  destruct (is_terminated s b); [done |]. injection H as _ <-.
  apply stable_terminated_with.
Qed.

Lemma terminates_set_terminator b opname operands :
  terminates b (set_terminator b opname operands).
Proof.
  intros s a s' Hb H. rewrite set_terminator_eq in H.
  destruct (is_terminated s b); [done |]. injection H as _ <-.
  split; [apply stable_terminated_with | by apply is_terminated_terminated_with].
Qed.

Lemma terminates_bind {A B} b (c : M A) (k : A → M B) :
  steps c → (∀ a, terminates b (k a)) → terminates b (bind c k).
Proof.
  intros Hc Hk s x s' Hb H. unfold bind in H.
  destruct (c s) as [a s1|e] eqn:E; [|done].
  pose proof (Hc _ _ _ E) as Hst.
  destruct (Hk a s1 x s' (stable_is_block _ _ _ Hst Hb) H) as [Hst' Ht].
  split; [by eapply stable_trans | done].
Qed.

Lemma terminates_then {A B} b (c : M A) (k : A → M B) :
  terminates b c → (∀ a, steps (k a)) → terminates b (bind c k).
Proof.
  intros Hc Hk s x s' Hb H. unfold bind in H.
  destruct (c s) as [a s1|e] eqn:E; [|done].
  destruct (Hc _ _ _ Hb E) as [Hst Ht].
  pose proof (Hk a _ _ _ H) as Hst'.
  split; [by eapply stable_trans | by eapply stable_is_terminated].
Qed.

Lemma terminates_raise {A} b e : terminates b (raise (A:=A) e).
Proof. intros s a s' _ H. discriminate. Qed.

Lemma steps_reconcile lhs rhs : steps (reconcile lhs rhs).
Proof.
  intros s a s' H. unfold reconcile, bind, get_type in H.
  destruct (bool_decide (type_of s lhs ≠ type_of s rhs)); [|injection H as _ <-; apply stable_refl].
  destruct (type_of s lhs) as [wl| | | | |] eqn:El;
    try (injection H as _ <-; apply stable_refl).
  destruct (type_of s rhs) as [wr| | | | |] eqn:Er;
    try (injection H as _ <-; apply stable_refl).
  simpl in H. rewrite (fixConflictingIntType_eq s lhs rhs wl wr El Er) in H.
  injection H as _ <-. apply stable_retyped.
  destruct (wr <? wl)%N; [by rewrite Er | by rewrite El].
Qed.

(** The changes of a field other than the heap and the two tables. *)
Ltac field_change :=
  apply steps_modify; intros; repeat split; reflexivity.

Create HintDb steps discriminated.

#[local] Hint Resolve steps_ret steps_raise steps_get steps_subscript steps_item steps_deref
  steps_int_value steps_local_var steps_get_type steps_alloc steps_insert_instr
  steps_set_terminator steps_reconcile : steps.

(** Walks a computation along its binds and branches. *)
Ltac walk :=
  repeat first
    [ progress intros
    | solve [ auto with steps ]
    | solve [ field_change ]
    | apply steps_bind
    | apply steps_try_except
    | match goal with
      | |- steps (if ?b then _ else _) => destruct b
      | |- steps (match ?x with _ => _ end) => destruct x
      | |- steps (let _ := _ in _) => cbv zeta
      end ].

Lemma steps_constant t n : steps (constant t n).
Proof. unfold constant. walk. Qed.

Lemma steps_binop opname b lhs rhs : steps (binop opname b lhs rhs).
Proof. unfold binop. walk. Qed.

Lemma steps_icmp pred b lhs rhs : steps (icmp pred b lhs rhs).
Proof. unfold icmp. walk. Qed.

Lemma steps_castop opname b v t : steps (castop opname b v t).
Proof. unfold castop. walk. Qed.

Lemma steps_load b p : steps (load b p).
Proof. unfold load. walk. Qed.

Lemma steps_store b v p : steps (store b v p).
Proof. unfold store. walk. Qed.

Lemma steps_gep b p idx : steps (gep b p idx).
Proof. unfold gep. walk. Qed.

Lemma steps_call b f args : steps (call b f args).
Proof. unfold call. walk. Qed.

Lemma steps_branch b t : steps (branch b t).
Proof. unfold branch. walk. Qed.

Lemma steps_cbranch b c t f : steps (cbranch b c t f).
Proof. unfold cbranch. walk. Qed.

Lemma steps_ret_void b : steps (ret_void b).
Proof. unfold ret_void. walk. Qed.

Lemma steps_ret_ b v : steps (ret_ b v).
Proof. unfold ret_. walk. Qed.

#[local] Hint Resolve steps_constant steps_binop steps_icmp steps_castop steps_load
  steps_store steps_gep steps_call steps_branch steps_cbranch steps_ret_void steps_ret_
  : steps.

Lemma steps_neg b v : steps (neg b v).
Proof. unfold neg. walk. Qed.

Lemma steps_not_ b v : steps (not_ b v).
Proof. unfold not_. walk. Qed.

Lemma steps_new_arguments params : steps (new_arguments params).
Proof. induction params as [|p params IH]; simpl; walk. Qed.

#[local] Hint Resolve steps_neg steps_not_ steps_new_arguments : steps.

Lemma steps_new_function rt params name : steps (new_function rt params name).
Proof. unfold new_function. walk. Qed.

#[local] Hint Resolve steps_new_function : steps.

Lemma steps_instrument t : steps (instrument t).
Proof. unfold instrument. walk. Qed.

Lemma steps_fetch_input b arg : steps (fetch_input b arg).
Proof. unfold fetch_input. walk. Qed.

#[local] Hint Resolve steps_instrument steps_fetch_input : steps.

Lemma steps_fetch b arg : steps (fetch b arg).
Proof. unfold fetch. walk. Qed.

#[local] Hint Resolve steps_fetch : steps.

Lemma steps_fetch_lhs b arg : steps (fetch_lhs b arg).
Proof. unfold fetch_lhs. walk. Qed.

Lemma steps_fetch_rhs b arg : steps (fetch_rhs b arg).
Proof. unfold fetch_rhs. walk. Qed.

Lemma steps_fetch_store_output b arg r : steps (fetch_store_output b arg r).
Proof. unfold fetch_store_output. walk. Qed.

Lemma steps_first_input o : steps (first_input o).
Proof. unfold first_input. walk. Qed.

Lemma steps_cbranch_targets t l : steps (cbranch_targets t l).
Proof. unfold cbranch_targets. walk. Qed.

Lemma steps_call_arguments b rest : ∀ args, steps (call_arguments b rest args).
Proof. induction rest as [|a rest IH]; intros args; simpl; walk. Qed.

#[local] Hint Resolve steps_fetch_lhs steps_fetch_rhs steps_fetch_store_output
  steps_first_input steps_cbranch_targets steps_call_arguments : steps.

Lemma steps_reconciled_arm emit b o :
  (∀ b l r, steps (emit b l r)) → steps (reconciled_arm emit b o).
Proof. intros He. unfold reconciled_arm. walk. Qed.

Lemma steps_plain_arm emit b o :
  (∀ b l r, steps (emit b l r)) → steps (plain_arm emit b o).
Proof. intros He. unfold plain_arm. walk. Qed.

#[local] Hint Resolve steps_reconciled_arm steps_plain_arm : steps.

Lemma steps_lift_op b blk branched o : steps (lift_op b blk branched o).
Proof. unfold lift_op. walk. Qed.

Lemma steps_lift_ops b blk l : ∀ branched, steps (lift_ops b blk branched l).
Proof.
  induction l as [|o l IH]; intros branched; simpl; [apply steps_ret |].
  apply steps_bind; [apply steps_lift_op | intros; apply IH].
Qed.

Lemma steps_for_each {A} (l : list A) (body : A → M unit) :
  (∀ x, steps (body x)) → steps (for_each l body).
Proof.
  intros Hb. induction l as [|x l IH]; simpl; [apply steps_ret |].
  apply steps_bind; [apply Hb | intros; apply IH].
Qed.

#[local] Hint Resolve steps_lift_op steps_lift_ops : steps.

Lemma steps_lift_block label : steps (lift_block label).
Proof. unfold lift_block. walk. Qed.

Lemma steps_lift_function : steps lift_function.
Proof.
  unfold lift_function. apply steps_bind; [apply steps_get |].
  intros s. apply steps_for_each. apply steps_lift_block.
Qed.

(** Lifting the body of a function leaves the local and global tables as
    they are and never changes the type of a pointer, so that the handles of
    the two tables stay pointers; this holds for one operation as for the
    whole body. *)
Theorem lifting_keeps_pointer_handles :
  (∀ s s' builder blk branched o b,
     lift_op builder blk branched o s = Ok b s' →
     locals s' = locals s ∧ global_vars s' = global_vars s
     ∧ (pointers_ok s → pointers_ok s'))
  ∧ (∀ s s',
       lift_function s = Ok tt s' →
       locals s' = locals s ∧ global_vars s' = global_vars s
       ∧ (pointers_ok s → pointers_ok s')).
Proof.
  split.
  - intros s s' builder blk branched o b H.
    pose proof (steps_lift_op builder blk branched o s b s' H) as Hst.
    split; [apply Hst | split; [apply Hst |]].
    by apply stable_pointers_ok.
  - intros s s' H.
    pose proof (steps_lift_function s tt s' H) as Hst.
    split; [apply Hst | split; [apply Hst |]].
    by apply stable_pointers_ok.
Qed.

Lemma lifting_keeps_pointer_handles_witness :
  lift_function demo_state = Ok tt demo_state_lifted
  ∧ pointers_ok demo_state
  ∧ locals demo_state_lifted = locals demo_state
  ∧ pointers_ok demo_state_lifted.
Proof.
  assert (lift_function demo_state = Ok tt demo_state_lifted) as H
    by (vm_compute; reflexivity).
  assert (pointers_ok demo_state) as Hok
    by (split; apply map_Forall_to_list; vm_compute; repeat constructor).
  destruct (proj2 lifting_keeps_pointer_handles demo_state demo_state_lifted H)
    as (L & _ & P).
  split; [exact H | split; [exact Hok | split; [exact L | exact (P Hok)]]].
Defined.

(** *** Terminators of lifted blocks *)

Lemma sets_branched_ret b branched : sets_branched b branched (ret branched).
Proof. intros s x s' _ [= <- <-]. split; [apply stable_refl | auto]. Qed.

Lemma sets_branched_raise b branched e : sets_branched b branched (raise e).
Proof. intros s x s' _ H. discriminate. Qed.

Lemma sets_branched_bind {A} b branched (c : M A) (k : A → M bool) :
  steps c → (∀ a, sets_branched b branched (k a)) → sets_branched b branched (bind c k).
Proof.
  intros Hc Hk s x s' Hb H. unfold bind in H.
  destruct (c s) as [a s1|e] eqn:E; [|done].
  pose proof (Hc _ _ _ E) as Hst.
  destruct (Hk a s1 x s' (stable_is_block _ _ _ Hst Hb) H) as [Hst' Ht].
  split; [by eapply stable_trans | done].
Qed.

Lemma sets_branched_terminated {A} b branched (c : M A) :
  terminates b c → sets_branched b branched (bind c (λ _, ret true)).
Proof.
  intros Hc s x s' Hb H. unfold bind in H.
  destruct (c s) as [a s1|e] eqn:E; [|done]. injection H as <- <-.
  destruct (Hc _ _ _ Hb E) as [Hst Ht]. split; [done | auto].
Qed.

Lemma terminates_branch b t : terminates b (branch b t).
Proof. apply terminates_set_terminator. Qed.

Lemma terminates_cbranch b c t f : terminates b (cbranch b c t f).
Proof. apply terminates_set_terminator. Qed.

Lemma terminates_ret_void b : terminates b (ret_void b).
Proof. apply terminates_set_terminator. Qed.

Lemma terminates_ret_ b v : terminates b (ret_ b v).
Proof. apply terminates_set_terminator. Qed.

#[local] Hint Resolve terminates_branch terminates_cbranch terminates_ret_void
  terminates_ret_ terminates_raise : steps.

(** Walks an arm of [lift_op] down to the value it answers. *)
Ltac walk_arm :=
  repeat first
    [ progress intros
    | apply sets_branched_ret
    | apply sets_branched_raise
    | match goal with
      | |- sets_branched _ _ (bind _ (λ _, ret true)) => apply sets_branched_terminated
      end;
      repeat first
        [ progress intros
        | solve [ auto with steps ]
        | apply terminates_bind; [ solve [ walk ] | ]
        | match goal with
          | |- terminates _ (if ?b then _ else _) => destruct b
          | |- terminates _ (match ?x with _ => _ end) => destruct x
          | |- terminates _ (let _ := _ in _) => cbv zeta
          end ]
    | apply sets_branched_bind; [ solve [ walk ] | ]
    | match goal with
      | |- sets_branched _ _ (if ?b then _ else _) => destruct b
      | |- sets_branched _ _ (match ?x with _ => _ end) => destruct x
      | |- sets_branched _ _ (let _ := _ in _) => cbv zeta
      end ].

Lemma sets_branched_lift_op b blk branched o :
  sets_branched b branched (lift_op b blk branched o).
Proof. unfold lift_op. walk_arm. Qed.

Lemma lift_ops_terminated b blk l :
  ∀ s branched x s',
    is_block s b = true →
    (branched = true → is_terminated s b = true) →
    lift_ops b blk branched l s = Ok x s' →
    stable s s' ∧ (x = true → is_terminated s' b = true).
Proof.
  induction l as [|o l IH]; intros s branched x s' Hb Hbr H.
  - injection H as <- <-. split; [apply stable_refl | done].
  - simpl in H. unfold bind in H.
    destruct (lift_op b blk branched o s) as [br1 s1|e] eqn:E; [|done].
    destruct (sets_branched_lift_op b blk branched o s br1 s1 Hb E) as [Hst Hbr1].
    destruct (IH s1 br1 x s' (stable_is_block _ _ _ Hst Hb)) as [Hst' Hx]; [|done|].
    + intros Htrue. destruct (Hbr1 Htrue) as [Hold | Hnew]; [|done].
      by eapply stable_is_terminated; [|apply Hbr].
    + split; [by eapply stable_trans | done].
Qed.

Lemma subscript_ok {A} (o : option A) s a s' :
  subscript o s = Ok a s' → o = Some a ∧ s' = s.
Proof. destruct o; [by intros [= <- <-] | done]. Qed.

Lemma deref_ok {A} (o : option A) s a s' : deref o s = Ok a s' → o = Some a ∧ s' = s.
Proof. destruct o; [by intros [= <- <-] | done]. Qed.

Lemma lift_block_terminated label s s' b :
  dict_get label (ir_blocks s) = Some b →
  is_block s b = true →
  lift_block label s = Ok tt s' →
  stable s s' ∧ is_terminated s' b = true.
Proof.
  intros Hlabel Hb H.
  pose proof (steps_lift_block label s tt s' H) as Hst. split; [done |].
  unfold lift_block in H. rewrite bind_get, Hlabel in H. unfold subscript at 1 in H.
  rewrite bind_ret_l in H. unfold bind at 1 in H.
  destruct (subscript (dict_get label (xml_blocks s)) s) as [xb s0|e] eqn:Ex; [|done].
  apply subscript_ok in Ex as [_ ->].
  unfold bind at 1 in H.
  destruct (lift_ops b xb false (ops xb) s) as [x s1|e] eqn:Eops; [|done].
  destruct (lift_ops_terminated b xb (ops xb) s false x s1 Hb) as [Hst1 Hx]; [done | done |].
  destruct x; simpl in H.
  - injection H as <-. by apply Hx.
  - unfold bind at 1 in H. destruct (deref (head (out_branches xb)) s1) as [out s2|e] eqn:Eo;
      [|done].
    apply deref_ok in Eo as [_ ->].
    rewrite bind_get in H. unfold bind at 1 in H.
    destruct (subscript (dict_get out (ir_blocks s1)) s1) as [blk s3|e] eqn:Eb; [|done].
    apply subscript_ok in Eb as [_ ->].
    unfold bind in H.
    destruct (branch b blk s1) as [i s4|e] eqn:Ebr; [|done]. injection H as <-.
    by destruct (terminates_branch b blk s1 i s4 (stable_is_block _ _ _ Hst1 Hb) Ebr).
Qed.

Lemma dict_get_elem {V} (k : string) (d : list (string * V)) (v : V) :
  dict_get k d = Some v → (k, v) ∈ d.
Proof.
  induction d as [|[k' v'] d IH]; [done |]. simpl.
  destruct (String.eqb k' k) eqn:E.
  - apply String.eqb_eq in E as ->. intros [= ->]. left.
  - intros H. right. by apply IH.
Qed.

Lemma for_each_lift_block_terminated labels :
  ∀ s s',
    blocks_ok s →
    for_each labels lift_block s = Ok tt s' →
    stable s s'
    ∧ ∀ label b, label ∈ labels → dict_get label (ir_blocks s) = Some b →
                 is_terminated s' b = true.
Proof.
  induction labels as [|l labels IH]; intros s s' Hblocks H.
  - injection H as <-. split; [apply stable_refl |]. intros label b Hin. by inversion Hin.
  - simpl in H. unfold bind in H.
    destruct (lift_block l s) as [[] s1|e] eqn:E; [|done].
    pose proof (steps_lift_block l s tt s1 E) as Hst.
    assert (blocks_ok s1) as Hblocks1.
    { unfold blocks_ok in *. pose proof Hst as (_ & _ & Eb & _). rewrite Eb.
      eapply Forall_impl; [exact Hblocks |]. intros p Hp. by eapply stable_is_block. }
    destruct (IH s1 s' Hblocks1 H) as [Hst' Hrest].
    split; [by eapply stable_trans |].
    intros label b Hin Hget. apply elem_of_cons in Hin as [-> | Hin].
    + assert (is_block s b = true) as Hb.
      { unfold blocks_ok in Hblocks. rewrite Forall_forall in Hblocks.
        apply (Hblocks (l, b)). by apply dict_get_elem. }
      destruct (lift_block_terminated l s s1 b Hget Hb E) as [_ Ht].
      by eapply stable_is_terminated.
    + apply (Hrest label b Hin). pose proof Hst as (_ & _ & Eb & _). by rewrite Eb.
Qed.

Lemma dict_get_key {V} (k : string) (d : list (string * V)) (v : V) :
  dict_get k d = Some v → k ∈ map fst d.
Proof.
  induction d as [|[k' v'] d IH]; [done |]. simpl.
  destruct (String.eqb k' k) eqn:E.
  - apply String.eqb_eq in E as ->. intros _. left.
  - intros H. right. by apply IH.
Qed.

Lemma lift_function_terminated (s s' : state) :
  blocks_ok s →
  lift_function s = Ok tt s' →
  ∀ label b, dict_get label (ir_blocks s) = Some b → is_terminated s' b = true.
Proof.
  intros Hblocks H label b Hget.
  unfold lift_function in H. rewrite bind_get in H.
  destruct (for_each_lift_block_terminated _ s s' Hblocks H) as [_ Hall].
  apply (Hall label b); [|done]. by eapply dict_get_key.
Qed.

(** When the body of a function has been lifted, every block of the
    function has a terminator: the one an operation of the block set, or the
    branch to the first out-edge that the lifter appends to a block without
    one. *)
Theorem lifted_blocks_are_terminated (s s' : state) :
  blocks_ok s →
  lift_function s = Ok tt s' →
  ∀ label b, dict_get label (ir_blocks s) = Some b → is_terminated s' b = true.
Proof. exact (lift_function_terminated s s'). Qed.

Lemma lifted_blocks_are_terminated_witness :
  blocks_ok demo_state
  ∧ lift_function demo_state = Ok tt demo_state_lifted
  ∧ dict_get "0x00001000" (ir_blocks demo_state) = Some 6
  ∧ is_terminated demo_state 6 = false
  ∧ is_terminated demo_state_lifted 6 = true.
Proof.
  assert (blocks_ok demo_state) as Hb by (vm_compute; repeat constructor).
  assert (lift_function demo_state = Ok tt demo_state_lifted) as H
    by (vm_compute; reflexivity).
  split; [exact Hb | split; [exact H | split; [reflexivity | split; [reflexivity |]]]].
  exact (lifted_blocks_are_terminated demo_state demo_state_lifted Hb H "0x00001000" 6
           eq_refl).
Defined.

(** ** Setting up a function *)

Lemma hoare_bind {A B} P (c : M A) Q (k : A → M B) R :
  hoare P c Q → (∀ a, hoare (Q a) (k a) R) → hoare P (bind c k) R.
Proof.
  intros Hc Hk s b s' HP H. unfold bind in H.
  destruct (c s) as [a s1|e] eqn:E; [|done].
  eapply Hk; [|exact H]. by eapply Hc.
Qed.

Lemma hoare_ret {A} (P : state → Prop) (a : A) (Q : A → state → Prop) :
  (∀ s, P s → Q a s) → hoare P (ret a) Q.
Proof.
  intros H s a' s' HP Heq. unfold ret in Heq. inversion Heq as [[Ea Es]].
  rewrite <- Ea, <- Es. by apply H.
Qed.

Lemma hoare_weaken {A} (P P' : state → Prop) (c : M A) (Q Q' : A → state → Prop) :
  hoare P' c Q' → (∀ s, P s → P' s) → (∀ a s, Q' a s → Q a s) → hoare P c Q.
Proof. intros H HP HQ s a s' Hs Hc. apply HQ. eapply H; [by apply HP | done]. Qed.

Lemma hoare_for_each {A} (I : state → Prop) (l : list A) (body : A → M unit) :
  (∀ x, x ∈ l → hoare I (body x) (λ _, I)) → hoare I (for_each l body) (λ _, I).
Proof.
  induction l as [|x l IH]; intros Hb; simpl.
  - by apply hoare_ret.
  - eapply hoare_bind; [apply Hb; left |]. intros u. apply IH.
    intros y Hy. apply Hb. by right.
Qed.

Lemma stable_blocks_ok s s' : stable s s' → blocks_ok s → blocks_ok s'.
Proof.
  intros Hst Hb. unfold blocks_ok in *. pose proof Hst as (_ & _ & -> & _).
  eapply Forall_impl; [exact Hb |]. intros p Hp. by eapply stable_is_block.
Qed.

Lemma stable_setup_ok e s s' : stable s s' → setup_ok e s → setup_ok e s'.
Proof.
  intros Hst (Hp & Hb & He). split; [by eapply stable_pointers_ok |].
  split; [by eapply stable_blocks_ok | by eapply stable_is_block].
Qed.

Lemma hoare_steps {A} e (c : M A) : steps c → hoare (setup_ok e) c (λ _, setup_ok e).
Proof. intros Hc s a s' Hs H. eapply stable_setup_ok; [by eapply Hc | done]. Qed.

(** A computation whose result is a pointer. *)
Lemma hoare_pointer e (c : M vid) :
  steps c →
  (∀ s a s', c s = Ok a s' → is_pointer (type_of s' a) = true) →
  hoare (setup_ok e) c (λ a s, setup_ok e s ∧ is_pointer (type_of s a) = true).
Proof.
  intros Hc Hp s a s' Hs H. split; [|by eapply Hp].
  eapply stable_setup_ok; [by eapply Hc | done].
Qed.

Lemma hoare_set_local e name p :
  hoare (λ s, setup_ok e s ∧ is_pointer (type_of s p) = true) (set_local name p)
        (λ _, setup_ok e).
Proof.
  intros s a s' [((Hg & Hl) & Hb & He) Hp] [= _ <-].
  split; [|split; done]. split; [done |]. simpl.
  by apply map_Forall_insert_2.
Qed.

Lemma alloca_pointer b t s a s' : alloca b t s = Ok a s' → is_pointer (type_of s' a) = true.
Proof.
  unfold alloca. rewrite insert_instr_eq. intros [= <- <-].
  by rewrite type_of_inserted_new.
Qed.

Lemma gep_result_pointer b p idx s a s' :
  gep b p idx s = Ok a s' → is_pointer (type_of s' a) = true.
Proof.
  unfold gep. rewrite bind_get.
  destruct (gep_walk s VoidType (type_of s p) idx) as [e|[last t]]; [done |].
  rewrite insert_instr_eq. intros [= <- <-]. rewrite type_of_inserted_new.
  destruct t; destruct last; done.
Qed.

Lemma bitcast_pointer b v t s a s' :
  castop "bitcast" b v (PointerType t) s = Ok a s' → is_pointer (type_of s' a) = true.
Proof.
  rewrite castop_eq. destruct (bool_decide (type_of s v = PointerType t)) eqn:E.
  - intros [= <- <-]. apply bool_decide_eq_true_1 in E. by rewrite E.
  - intros [= <- <-]. by rewrite type_of_inserted_new.
Qed.

Lemma steps_alloca b t : steps (alloca b t).
Proof. unfold alloca. walk. Qed.

Lemma steps_define_struct name elems : steps (define_struct name elems).
Proof. unfold define_struct. walk. Qed.

Lemma steps_append_basic_block name : steps (append_basic_block name).
Proof. unfold append_basic_block. walk. Qed.

Lemma steps_register_sizes x : steps (register_sizes x).
Proof.
  unfold register_sizes.
  assert (∀ l acc, steps acc →
            steps (fold_left
                     (λ (acc : M (list (string * N))) (v : varnode),
                        register_vars <~ acc ;;
                        if Py.contains "register0x" (vn_symbol v) then
                          if has_attributes v then raise IndexError
                          else
                            let size := if (vn_size v =? 1)%N then vn_size v
                                        else (vn_size v * 8)%N in
                            match dict_get (vn_symbol v) register_vars with
                            | None => ret (dict_set (vn_symbol v) size register_vars)
                            | Some old =>
                                if (old <? size)%N
                                then ret (dict_set (vn_symbol v) size register_vars)
                                else ret register_vars
                            end
                        else ret register_vars) l acc)) as H.
  { induction l as [|v l IH]; intros acc Hacc; simpl; [done |].
    apply IH. walk. }
  apply H. apply steps_ret.
Qed.

#[local] Hint Resolve steps_alloca steps_define_struct steps_append_basic_block
  steps_register_sizes : steps.

(** The body of each loop of [recover_locals] keeps the set-up well
    formed. *)
Lemma hoare_alloca_local e b t name :
  hoare (setup_ok e) (a <~ alloca b t ;; set_local name a) (λ _, setup_ok e).
Proof.
  eapply hoare_bind; [apply hoare_pointer; [apply steps_alloca | apply alloca_pointer] |].
  intros a. apply hoare_set_local.
Qed.

Lemma hoare_gep_local e b (struct : vid) (index : Z) name :
  hoare (setup_ok e)
    (zero <~ constant int32 0 ;;
     index <~ constant int32 index ;;
     g <~ gep b struct [zero; index] ;;
     set_local name g)
    (λ _, setup_ok e).
Proof.
  eapply hoare_bind; [apply hoare_steps, steps_constant |]. intros zero.
  eapply hoare_bind; [apply hoare_steps, steps_constant |]. intros idx.
  eapply hoare_bind; [apply hoare_pointer; [apply steps_gep | apply gep_result_pointer] |].
  intros g. apply hoare_set_local.
Qed.

Lemma hoare_bitcast_local e b (struct : vid) (index : Z) t name :
  hoare (setup_ok e)
    (zero <~ constant int32 0 ;;
     index <~ constant int32 index ;;
     temp <~ gep b struct [zero; index] ;;
     c <~ castop "bitcast" b temp (PointerType t) ;;
     set_local name c)
    (λ _, setup_ok e).
Proof.
  eapply hoare_bind; [apply hoare_steps, steps_constant |]. intros zero.
  eapply hoare_bind; [apply hoare_steps, steps_constant |]. intros idx.
  eapply hoare_bind; [apply hoare_steps, steps_gep |]. intros temp.
  eapply hoare_bind; [apply hoare_pointer; [apply steps_castop | apply bitcast_pointer] |].
  intros c. apply hoare_set_local.
Qed.

Lemma hoare_recover_locals name x :
  hoare (λ s, pointers_ok s ∧ blocks_ok s) (recover_locals name x)
        (λ entry s, setup_ok entry s).
Proof.
  unfold recover_locals.
  eapply hoare_bind.
  { intros s a s' [Hp Hb] H. unfold append_basic_block in H. rewrite alloc_eq in H.
    injection H as <- <-.
    instantiate (1 := λ a s, setup_ok a s).
    split; [by eapply stable_pointers_ok; [apply stable_allocated |] |].
    split; [by eapply stable_blocks_ok; [apply stable_allocated |] |].
    unfold is_block, allocated. simpl. rewrite lookup_app_r by lia.
    by rewrite Nat.sub_diag. }
  intros entry. eapply hoare_bind; [apply hoare_steps, steps_get |]. intros s0. cbv zeta.
  eapply hoare_bind.
  { instantiate (1 := λ _, setup_ok entry).
    destruct (String.eqb (options_stack s0) "single_struct").
    { eapply hoare_bind; [apply hoare_steps, steps_define_struct |]. intros st.
      eapply hoare_bind; [apply hoare_steps, steps_alloca |]. intros struct.
      apply hoare_for_each. intros [i n] _. apply hoare_gep_local. }
    destruct (String.eqb (options_stack s0) "byte_addressable").
    { destruct (byte_layout 0 (fx_locals x)) as [sizes total].
      eapply hoare_bind; [apply hoare_steps, steps_define_struct |]. intros st.
      eapply hoare_bind; [apply hoare_steps, steps_alloca |]. intros struct.
      apply hoare_for_each. intros [[n i] t] _. apply hoare_bitcast_local. }
    destruct (String.eqb (options_stack s0) "no_option").
    { apply hoare_for_each. intros v _. apply hoare_alloca_local. }
    by apply hoare_ret. }
  intros u. eapply hoare_bind; [apply hoare_steps, steps_register_sizes |]. intros regs.
  eapply hoare_bind.
  { apply hoare_for_each. intros [n w] _. apply hoare_alloca_local. }
  intros u'. by apply hoare_ret.
Qed.

Lemma dict_get_set_eq {V} (k : string) (v : V) d : dict_get k (dict_set k v d) = Some v.
Proof.
  induction d as [|[k' v'] d IH]; simpl; [by rewrite String.eqb_refl |].
  destruct (String.eqb k' k) eqn:E; simpl; by rewrite E.
Qed.

Lemma dict_get_set_ne {V} (k k0 : string) (v : V) d :
  k0 ≠ k → dict_get k (dict_set k0 v d) = dict_get k d.
Proof.
  intros Hne. induction d as [|[k' v'] d IH]; simpl.
  - by rewrite (proj2 (String.eqb_neq k0 k) Hne).
  - destruct (String.eqb k' k0) eqn:E; simpl.
    + apply String.eqb_eq in E as ->. by rewrite (proj2 (String.eqb_neq k0 k) Hne).
    + by destruct (String.eqb k' k).
Qed.

Lemma dict_set_is_Some {V} (k k0 : string) (v : V) d :
  is_Some (dict_get k d) → is_Some (dict_get k (dict_set k0 v d)).
Proof.
  intros H. destruct (decide (k0 = k)) as [->|Hne].
  - rewrite dict_get_set_eq. eauto.
  - by rewrite dict_get_set_ne.
Qed.

Lemma Forall_dict_set {V} (P : string * V → Prop) (k : string) (v : V) d :
  (∀ k', P (k', v)) → Forall P d → Forall P (dict_set k v d).
Proof.
  intros Hv Hd. induction Hd as [|[k' v'] d Hp Hd IH]; simpl.
  - by constructor.
  - destruct (String.eqb k' k); constructor; done.
Qed.

(** The loop of [build_cfg]. *)
Lemma build_cfg_blocks e (l : list xml_block) :
  ∀ s s',
    setup_ok e s →
    for_each l (λ xml_block,
      let label := format_label (address xml_block) in
      block <~ append_basic_block label ;;
      modify (λ s, with_blocks (dict_set label block (ir_blocks s))
                               (dict_set label xml_block (xml_blocks s)) s)) s = Ok tt s' →
    setup_ok e s'
    ∧ (∀ k, is_Some (dict_get k (ir_blocks s)) → is_Some (dict_get k (ir_blocks s')))
    ∧ (∀ blk, blk ∈ l → is_Some (dict_get (format_label (address blk)) (ir_blocks s'))).
Proof.
  induction l as [|blk l IH]; intros s s' Hs H.
  - injection H as <-. split; [done | split; [done |]]. intros blk Hin. by inversion Hin.
  - simpl in H. unfold bind at 1 in H. cbv zeta in H. unfold bind at 1 in H.
    unfold append_basic_block in H. rewrite alloc_eq in H. unfold modify in H.
    set (label := format_label (address blk)) in *.
    set (s1 := allocated (Block label [] None) LabelType s) in *.
    set (s2 := with_blocks (dict_set label (length (heap s)) (ir_blocks s1))
                 (dict_set label blk (xml_blocks s1)) s1) in *.
    assert (setup_ok e s2) as Hs2.
    { destruct (stable_setup_ok e s s1 (stable_allocated _ _ _) Hs) as (Hp & Hb & He).
      split; [done | split; [|done]].
      unfold blocks_ok. subst s2. simpl. apply Forall_dict_set; [|exact Hb].
      intros k'. simpl. unfold is_block, s1, allocated. simpl.
      rewrite lookup_app_r by lia. by rewrite Nat.sub_diag. }
    destruct (IH s2 s' Hs2 H) as (Hs' & Hmono & Hkeys).
    split; [done | split].
    + intros k Hk. apply Hmono. subst s2. simpl. by apply dict_set_is_Some.
    + intros b Hin. apply elem_of_cons in Hin as [-> | Hin]; [|by apply Hkeys].
      apply Hmono. subst s2. simpl. fold label. rewrite dict_get_set_eq. eauto.
Qed.

Lemma hoare_build_cfg e x :
  hoare (setup_ok e) (build_cfg e x)
    (λ _ s, setup_ok e s ∧ is_terminated s e = true
            ∧ ∀ blk, blk ∈ fx_blocks x →
                     is_Some (dict_get (format_label (address blk)) (ir_blocks s))).
Proof.
  intros s [] s' Hs H. unfold build_cfg in H. unfold bind at 1 in H.
  destruct (for_each (fx_blocks x) _ s) as [[] s1|err] eqn:E; [|done].
  destruct (build_cfg_blocks e (fx_blocks x) s s1 Hs E) as (Hs1 & _ & Hkeys).
  rewrite bind_get in H. unfold bind at 1 in H.
  destruct (item (map snd (ir_blocks s1)) 0 s1) as [first s2|err] eqn:Ei; [|done].
  pose proof (steps_item _ _ _ _ _ Ei) as Hst2.
  unfold bind in H. destruct (branch e first s2) as [i s3|err] eqn:Eb; [|done].
  injection H as <-.
  assert (is_block s2 e = true) as He2
    by (eapply stable_is_block; [exact Hst2 | apply Hs1]).
  destruct (terminates_branch e first s2 i s3 He2 Eb) as [Hst3 Ht].
  pose proof (stable_trans _ _ _ Hst2 Hst3) as Hst.
  split; [by eapply stable_setup_ok | split; [done |]].
  intros blk Hin. pose proof Hst as (_ & _ & -> & _). by apply Hkeys.
Qed.

(** A function without blocks cannot be set up: [build_cfg] fails on the
    first block it wants to branch to. *)
Theorem build_cfg_needs_a_block (s : state) (entry : vid) (x : function_xml) :
  fx_blocks x = [] → ir_blocks s = [] → build_cfg entry x s = Raise IndexError.
Proof. intros Hx Hs. unfold build_cfg. rewrite Hx. simpl. rewrite bind_ret_l, bind_get. by rewrite Hs. Qed.

Lemma build_cfg_needs_a_block_witness :
  fx_blocks (FunctionXml [] "void" 0 [] []) = []
  ∧ ir_blocks (initial_state "a.out" "no_option") = []
  ∧ build_cfg 0 (FunctionXml [] "void" 0 [] []) (initial_state "a.out" "no_option")
    = Raise IndexError.
Proof.
  split; [reflexivity | split; [reflexivity |]].
  exact (build_cfg_needs_a_block (initial_state "a.out" "no_option") 0
           (FunctionXml [] "void" 0 [] []) eq_refl eq_refl).
Defined.

Lemma hoare_function_init name x :
  hoare globals_ok (function_init name x)
    (λ _ s, pointers_ok s ∧ blocks_ok s
            ∧ ∀ blk, blk ∈ fx_blocks x →
                     is_Some (dict_get (format_label (address blk)) (ir_blocks s))).
Proof.
  intros s [] s' Hg H. unfold function_init in H. rewrite bind_get in H.
  unfold bind at 1 in H.
  destruct (subscript (functions_ir s !! name) s) as [f s0|err] eqn:Ef; [|done].
  apply subscript_ok in Ef as [_ ->].
  unfold bind at 1 in H. unfold modify at 1 in H.
  set (s0 := State _ _ _ _ _ _ _ _ _ _ _ _ _ _ _ _ _) in H.
  assert (pointers_ok s0 ∧ blocks_ok s0) as Hs0.
  { split; [split |].
    - exact Hg.
    - subst s0. simpl. apply map_Forall_empty.
    - constructor. }
  unfold bind at 1 in H.
  destruct (recover_locals name x s0) as [entry s1|err] eqn:Er; [|done].
  pose proof (hoare_recover_locals name x s0 entry s1 Hs0 Er) as Hs1.
  destruct (hoare_build_cfg entry x s1 tt s' Hs1 H) as ((Hp & Hb & _) & _ & Hkeys).
  done.
Qed.

(** Setting up and lifting one function, from a state whose global handles
    are pointers, ends in a state whose global and local handles are
    pointers and where every block of the artifact has a basic block under
    its formatted label, with a terminator. *)
Theorem populate_function_invariants
    (s s' : state) (name : string) (x : function_xml) :
  globals_ok s →
  populate_function name x s = Ok tt s' →
  pointers_ok s'
  ∧ ∀ blk, blk ∈ fx_blocks x →
           ∃ b, dict_get (format_label (address blk)) (ir_blocks s') = Some b
                ∧ is_block s' b = true
                ∧ is_terminated s' b = true.
Proof.
  intros Hg H. unfold populate_function, bind in H.
  destruct (function_init name x s) as [[] s1|err] eqn:Ei; [|done].
  destruct (hoare_function_init name x s tt s1 Hg Ei) as (Hp & Hb & Hkeys).
  pose proof (steps_lift_function s1 tt s' H) as Hst.
  split; [by eapply stable_pointers_ok |].
  intros blk Hin. destruct (Hkeys blk Hin) as [b Hget]. exists b.
  pose proof Hst as (_ & _ & Eb & _).
  split; [by rewrite Eb | split].
  - eapply stable_is_block; [exact Hst |].
    unfold blocks_ok in Hb. rewrite Forall_forall in Hb.
    apply (Hb (format_label (address blk), b)). by apply dict_get_elem.
  - by apply (lift_function_terminated s1 s' Hb H (format_label (address blk)) b).
Qed.

Lemma populate_function_invariants_witness :
  globals_ok demo_module_state
  ∧ populate_function "f" demo_f demo_module_state = Ok tt demo_populated_state
  ∧ pointers_ok demo_populated_state
  ∧ ∃ b, dict_get "0x00001000" (ir_blocks demo_populated_state) = Some b
         ∧ is_terminated demo_populated_state b = true.
Proof.
  assert (globals_ok demo_module_state) as Hg
    by (apply map_Forall_to_list; vm_compute; repeat constructor).
  assert (populate_function "f" demo_f demo_module_state = Ok tt demo_populated_state) as H
    by (vm_compute; reflexivity).
  destruct (populate_function_invariants demo_module_state demo_populated_state "f" demo_f
              Hg H) as [Hp Hblocks].
  split; [exact Hg | split; [exact H | split; [exact Hp |]]].
  destruct (Hblocks (XmlBlock "0x1000"
                       [Op "COPY" [vn "5" 8] (Some (vn "register0x0" 8));
                        Op "CALL" [vn "g" 8; vn "7" 4] (Some (vn "unique0x100" 8));
                        Op "RETURN" [] None] [])) as (b & Hget & _ & Ht).
  { left. }
  exists b. split; [exact Hget | exact Ht].
Defined.

(** ** Setting up the module *)





Lemma set_arg_names_types (l : list (vid * string)) :
  ∀ s, ∃ s', for_each l (λ p, set_arg_name p.1 p.2) s = Ok tt s'
             ∧ s' = with_heap (heap s') s
             ∧ length (heap s') = length (heap s)
             ∧ ∀ v, type_of s' v = type_of s v.
Proof.
  induction l as [|[a name] l IH]; intros s.
  - exists s. split; [done | split; [by destruct s | done]].
  - simpl. unfold bind at 1. unfold set_arg_name at 1. unfold modify.
    destruct (IH (with_heap (alter (λ o, VObj (Argument name) (v_type o)) a (heap s)) s))
      as (s' & Hrun & E & Hlen & Hty).
    exists s'. split; [done | split; [|split]].
    + rewrite E. by destruct s.
    + rewrite Hlen. simpl. by rewrite length_alter.
    + intros v. rewrite Hty. unfold type_of. simpl.
      destruct (decide (a = v)) as [->|Hne].
      * rewrite list_lookup_alter_eq. by destruct (heap s !! v).
      * by rewrite list_lookup_alter_ne.
Qed.

(** One round of [create_function_signatures]. *)
Lemma create_function_signature_step (name : string) (x : function_xml) (s : state) :
  match module_globals s !! name with
  | Some _ => create_function_signature name x s = Raise (DuplicatedNameError name)
  | None =>
      ∃ f s',
        create_function_signature name x s = Ok f s'
        ∧ module_globals s' = <[name := f]> (module_globals s)
        ∧ functions_ir s' = <[name := f]> (functions_ir s)
        ∧ global_vars s' = global_vars s
        ∧ length (heap s) ≤ length (heap s')
        ∧ (∀ v, v < length (heap s) → type_of s' v = type_of s v)
        ∧ f < length (heap s')
        ∧ type_of s' f
          = PointerType (FunctionType
                           (spec_return_type (fx_return_type x) (fx_return_size x))
                           (map snd (signature_args x)))
  end.
Proof.
  destruct (module_globals s !! name) as [g|] eqn:Hfree.
  - unfold create_function_signature.
    destruct (return_signature x) as [func_return mark].
    unfold bind at 1. unfold new_function. rewrite bind_get, Hfree. reflexivity.
  - unfold create_function_signature.
    pose proof (return_signature_spec x) as Hspec.
    destruct (return_signature x) as [func_return mark] eqn:Hsig. simpl in Hspec. subst.
    destruct (new_function_spec
                (spec_return_type (fx_return_type x) (fx_return_size x))
                (map snd (signature_args x)) name s Hfree)
      as (args & s1 & Hargs & Hgrow & Hlt & Hnew).
    rewrite (bind_ok _ _ _ _ _ Hnew). rewrite bind_get.
    set (f := length (heap s1)).
    set (s2 := with_module_globals _ _).
    destruct (set_arg_names_types
                (zip (function_args s2 f) (map fst (signature_args x))) s2)
      as (s3 & Hnames & E & Hlen & Hty).
    destruct Hgrow as (E1 & Hle & Hty1 & _).
    exists f, (with_functions_ir (<[name := f]> (functions_ir s3)) s3).
    split; [|split; [|split; [|split; [|split; [|split; [|split]]]]]].
    + unfold bind at 1. rewrite Hnames. reflexivity.
    + simpl. rewrite E. subst s2. simpl. first [reflexivity | by rewrite E1].
    + simpl. rewrite E. subst s2. simpl. first [reflexivity | by rewrite E1].
    + simpl. rewrite E. subst s2. simpl. first [reflexivity | by rewrite E1].
    + simpl. rewrite Hlen. subst s2. simpl. rewrite length_app. simpl. lia.
    + intros v Hv. change (type_of (with_functions_ir _ s3) v) with (type_of s3 v).
      rewrite Hty. rewrite <- (Hty1 v Hv). unfold type_of. subst s2. simpl.
      rewrite lookup_app_l by lia. reflexivity.
    + simpl. rewrite Hlen. subst s2 f. simpl. rewrite length_app. simpl. lia.
    + change (type_of (with_functions_ir _ s3) f) with (type_of s3 f).
      rewrite Hty. unfold type_of. subst s2 f. simpl.
      rewrite lookup_app_r by lia. by rewrite Nat.sub_diag.
Qed.

Lemma create_function_signatures_run (decompile_info : list (string * function_xml)) :
  ∀ s,
    NoDup (map fst decompile_info) →
    (∀ name, name ∈ map fst decompile_info → module_globals s !! name = None) →
    ∃ s',
      create_function_signatures decompile_info s = Ok tt s'
      ∧ length (heap s) ≤ length (heap s')
      ∧ (∀ v, v < length (heap s) → type_of s' v = type_of s v)
      ∧ global_vars s' = global_vars s
      ∧ (∀ n, n ∉ map fst decompile_info → functions_ir s' !! n = functions_ir s !! n)
      ∧ ∀ name x, (name, x) ∈ decompile_info →
          ∃ f, functions_ir s' !! name = Some f
               ∧ f < length (heap s')
               ∧ type_of s' f
                 = PointerType (FunctionType
                                  (spec_return_type (fx_return_type x) (fx_return_size x))
                                  (map snd (signature_args x))).
Proof.
  unfold create_function_signatures.
  induction decompile_info as [|[name x] info IH]; intros s Hnodup Hfree.
  - exists s. split; [done | split; [done | split; [done | split; [done | split; [done |]]]]].
    intros name x Hin. by inversion Hin.
  - simpl in Hnodup. apply NoDup_cons in Hnodup as [Hfresh Hnodup].
    pose proof (create_function_signature_step name x s) as Hstep.
    rewrite (Hfree name) in Hstep by (simpl; left).
    destruct Hstep as (f & s1 & Hrun & Hmg & Hfi & Hgv & Hle & Hty & Hlt & Hfty).
    destruct (IH s1 Hnodup) as (s' & Hrest & Hle' & Hty' & Hgv' & Hother & Hall).
    { intros n Hn. rewrite Hmg. rewrite lookup_insert_ne by (intros ->; done).
      apply Hfree. simpl. by right. }
    exists s'. split; [|split; [|split; [|split; [|split]]]].
    + simpl. unfold bind at 1. simpl. unfold bind at 1. rewrite Hrun. exact Hrest.
    + lia.
    + intros v Hv. rewrite Hty' by lia. by apply Hty.
    + by rewrite Hgv'.
    + intros n Hn. simpl in Hn. apply not_elem_of_cons in Hn as [Hne Hn].
      rewrite Hother by done. rewrite Hfi. by rewrite lookup_insert_ne.
    + intros name' x' Hin. apply elem_of_cons in Hin as [Heq | Hin].
      * injection Heq as -> ->. exists f. split; [|split].
        -- rewrite Hother by done. rewrite Hfi. apply lookup_insert_eq.
        -- lia.
        -- rewrite Hty' by done. exact Hfty.
      * by apply Hall.
Qed.

Lemma create_function_signatures_names (decompile_info : list (string * function_xml)) :
  ∀ s s',
    create_function_signatures decompile_info s = Ok tt s' →
    NoDup (map fst decompile_info)
    ∧ ∀ name, name ∈ map fst decompile_info → module_globals s !! name = None.
Proof.
  unfold create_function_signatures.
  induction decompile_info as [|[name x] info IH]; intros s s' H.
  - split; [constructor |]. intros name Hin. by inversion Hin.
  - simpl in H. unfold bind at 1 in H. simpl in H. unfold bind at 1 in H.
    pose proof (create_function_signature_step name x s) as Hstep.
    destruct (module_globals s !! name) as [g|] eqn:Hfree.
    { by rewrite Hstep in H. }
    destruct Hstep as (f & s1 & Hrun & Hmg & _).
    rewrite Hrun in H. simpl in H.
    destruct (IH s1 s' H) as (Hnodup & Hfree1).
    assert (name ∉ map fst info) as Hfresh.
    { intros Hin. specialize (Hfree1 name Hin). rewrite Hmg in Hfree1.
      by rewrite lookup_insert_eq in Hfree1. }
    split.
    + simpl. by apply NoDup_cons.
    + intros n Hn. simpl in Hn. apply elem_of_cons in Hn as [-> | Hn]; [done |].
      specialize (Hfree1 n Hn). rewrite Hmg in Hfree1.
      rewrite lookup_insert_ne in Hfree1; [done |]. intros ->. done.
Qed.

(** [create_function_signatures] runs to its end exactly when the functions
    of the binary have pairwise distinct names, none of which is the name of
    a global already in the module (llvmlite refuses a second global of a
    name). *)
Theorem create_function_signatures_succeeds_iff
    (decompile_info : list (string * function_xml)) (s : state) :
  (∃ s', create_function_signatures decompile_info s = Ok tt s')
  ↔ NoDup (map fst decompile_info)
    ∧ ∀ name, name ∈ map fst decompile_info → module_globals s !! name = None.
Proof.
  split.
  - intros (s' & H). by apply (create_function_signatures_names decompile_info s s').
  - intros (Hnodup & Hfree).
    destruct (create_function_signatures_run decompile_info s Hnodup Hfree) as (s' & H & _).
    by exists s'.
Qed.

(** After [create_function_signatures], every function of the binary is in
    [functions_ir] under its name, declared with the return type and the
    parameter types of its XML signature; the global table is the same and
    its handles are still pointers. *)
Theorem create_function_signatures_declares_all
    (decompile_info : list (string * function_xml)) (s s' : state) :
  globals_ok s →
  create_function_signatures decompile_info s = Ok tt s' →
  globals_ok s'
  ∧ global_vars s' = global_vars s
  ∧ ∀ name x, (name, x) ∈ decompile_info →
      ∃ f, functions_ir s' !! name = Some f
           ∧ type_of s' f
             = PointerType (FunctionType
                              (spec_return_type (fx_return_type x) (fx_return_size x))
                              (map snd (signature_args x))).
Proof.
  intros Hg H.
  destruct (create_function_signatures_names decompile_info s s' H) as (Hnodup & Hfree).
  destruct (create_function_signatures_run decompile_info s Hnodup Hfree)
    as (s'' & H' & _ & Hty & Hgv & _ & Hall).
  rewrite H in H'. injection H' as <-.
  split; [|split; [done |]].
  - unfold globals_ok. rewrite Hgv. intros k p Hk. specialize (Hg k p Hk). simpl in *.
    rewrite Hty; [done |]. unfold type_of in Hg.
    apply lookup_lt_is_Some. destruct (heap s !! p); [eauto | done].
  - intros name x Hin. destruct (Hall name x Hin) as (f & Hf & _ & Hfty). by exists f.
Qed.

Lemma create_function_signatures_declares_all_witness :
  globals_ok (after (fish_globals demo_binary) (initial_state "a.out" "no_option"))
  ∧ create_function_signatures demo_binary
      (after (fish_globals demo_binary) (initial_state "a.out" "no_option"))
    = Ok tt demo_module_state
  ∧ ∃ f, functions_ir demo_module_state !! "g" = Some f
         ∧ type_of demo_module_state f = PointerType (FunctionType (IntType 64) [IntType 32]).
Proof.
  assert (globals_ok (after (fish_globals demo_binary) (initial_state "a.out" "no_option")))
    as Hg by (apply map_Forall_to_list; vm_compute; repeat constructor).
  assert (create_function_signatures demo_binary
            (after (fish_globals demo_binary) (initial_state "a.out" "no_option"))
          = Ok tt demo_module_state) as H by (vm_compute; reflexivity).
  split; [exact Hg | split; [exact H |]].
  destruct (create_function_signatures_declares_all demo_binary
              (after (fish_globals demo_binary) (initial_state "a.out" "no_option"))
              demo_module_state Hg H) as (_ & _ & Hall).
  destruct (Hall "g" (FunctionXml [XmlVar "arg1" 4] "undefined8" 8 []
                        [XmlBlock "0x2000" [Op "RETURN" [vn "0" 8; vn "arg1" 4] None] []]))
    as (f & Hf & Hty).
  { left. }
  exists f. split; [exact Hf | exact Hty].
Defined.

(** ** The register pass of [recover_locals] *)












(** ** PIECE *)









Lemma create_function_signatures_succeeds_iff_witness :
  NoDup (map fst demo_binary)
  ∧ (∀ name, name ∈ map fst demo_binary →
       module_globals (initial_state "a.out" "no_option") !! name = None)
  ∧ ∃ s', create_function_signatures demo_binary (initial_state "a.out" "no_option")
          = Ok tt s'.
Proof.
  assert (NoDup (map fst demo_binary)) as Hnodup.
  { apply (bool_decide_unpack _). vm_compute. reflexivity. }
  assert (∀ name, name ∈ map fst demo_binary →
            module_globals (initial_state "a.out" "no_option") !! name = None) as Hfree.
  { intros name _. reflexivity. }
  split; [exact Hnodup | split; [exact Hfree |]].
  exact (proj2 (create_function_signatures_succeeds_iff demo_binary
                  (initial_state "a.out" "no_option")) (conj Hnodup Hfree)).
Defined.

